(** * Project state host of the Vue language server

    A shallow embedding of
    [packages/vue-language-server/src/utils/project.ts]: the closure
    built by [createProject], its mutable variables, and the
    operations it hands to the server and to the language service.

    Numbers that the source uses as counters ([projectVersion],
    [typeRootVersion], [version], [snapshotVersion]) only ever hold
    integers; they are embedded in [Z], the range in which [++] and
    [--] on a JavaScript number are exact. *)

From Stdlib Require Import ZArith String Ascii List DecimalString.
From Stdlib Require Import DecimalZ DecimalPos.
From stdpp Require Import base gmap strings list.

Open Scope string_scope.
Open Scope list_scope.
Open Scope Z_scope.

(** ** Values of the host language *)

(** [n.toString()] for an integer-valued number. *)
Definition number_toString (n : Z) : string :=
  NilZero.string_of_int (Z.to_int n).

(** [s.endsWith(suffix)]. *)
Definition endsWith (s suffix : string) : bool :=
  let n := String.length s in
  let m := String.length suffix in
  if (m <=? n)%nat
  then String.eqb (String.substring (n - m) m s) suffix
  else false.

(** [uri.substring(0, uri.indexOf(':'))]; [indexOf] answers -1 when
    the colon is missing and [substring] clamps that to 0. *)
Definition protocolOf (uri : string) : string :=
  match String.index 0 ":" uri with
  | Some i => String.substring 0 i uri
  | None => ""
  end.

(** A settled promise. *)
Inductive Promise (A E : Type) : Type :=
| Fulfilled (value : A)
| Rejected (reason : E).
Arguments Fulfilled {A E} value.
Arguments Rejected {A E} reason.

(** [promise.then(onFulfilled, onRejected)], both handlers returning
    a promise. *)
Definition promise_then {A E B F : Type}
    (p : Promise A E) (onFulfilled : A → Promise B F)
    (onRejected : E → Promise B F) : Promise B F :=
  match p with
  | Fulfilled a => onFulfilled a
  | Rejected e => onRejected e
  end.

(** ** Data model *)

(** [ts.IScriptSnapshot]; the only constructor the project uses is
    [ts.ScriptSnapshot.fromString]. *)
Inductive IScriptSnapshot : Type :=
| ScriptSnapshot_fromString (text : string).

(** [vscode.FileChangeType]. *)
Inductive FileChangeType : Type := Created | Changed | Deleted.

#[global] Instance FileChangeType_eq_dec : EqDecision FileChangeType.
Proof. solve_decision. Defined.

(** [vscode.FileEvent]. *)
Record FileEvent : Type := {
  change_uri : string;
  change_type : FileChangeType;
}.

(** The value type of the [scripts] path map. *)
Record ScriptEntry : Type := {
  version : Z;
  fileName : string;
  snapshot : option IScriptSnapshot;
  snapshotVersion : option Z;
}.

(** What the project reads of an open document of [documents.data]. *)
Record Document : Type := {
  doc_version : Z;
  doc_getSnapshot : IScriptSnapshot;
}.

(** The error a rejected [connection.sendRequest] carries. *)
Record ResponseError : Type := {
  error_code : Z;
  error_message : string;
}.

(** [ts.CompilerOptions]: [outDir] and the remaining settings. *)
Record CompilerOptions : Type := {
  outDir : option string;
  settings : list (string * string);
}.

(** Result of [createParsedCommandLine]. *)
Record ParsedCommandLine : Type := {
  pcl_fileNames : list string;
  pcl_options : CompilerOptions;
  pcl_projectReferences : list string;
  pcl_vueOptions : list (string * string);
}.

(** [ts.ParseConfigHost]. *)
Record ParseConfigHost : Type := {
  pch_useCaseSensitiveFileNames : bool;
  pch_readDirectory :
    string → list string → list string → list string → option nat →
    list string;
  pch_fileExists : string → bool;
  pch_readFile : string → option string;
}.

(** The instance built by [languageConfigs.createLanguageService];
    an object compared by identity, the identity being the rank of
    its construction. *)
Record LanguageService : Type := { instance : nat }.

#[global] Instance LanguageService_eq_dec : EqDecision LanguageService.
Proof. solve_decision. Defined.

(** [options.languageFeatures], as far as [createProject] reads it. *)
Record LanguageFeatures : Type := {
  schemaRequestService : bool;
}.

Record ServerInitializationOptions : Type := {
  languageFeatures : option LanguageFeatures;
}.

(** [languageConfigs]: the extension lists. *)
Record LanguageConfigs : Type := {
  definitelyExts : list string;
  indeterminateExts : list string;
}.

(** ** The arguments of [createProject] *)

(** The arguments that stay fixed for the life of the project,
    together with the library functions the project calls. *)
Class Environment : Type := {
  (** Modelled from the spec: the key functions of
      [shared.createPathMap], which keeps one entry per normalized
      filesystem path and indexes it by path and by URI alike. *)
  uriKey : string → string;
  fsPathKey : string → string;
  rootPath : string;
  tsConfig : string + CompilerOptions;
  options : ServerInitializationOptions;
  languageConfigs : LanguageConfigs;
  (** [vue.createParsedCommandLine(ts, parseConfigHost, tsConfig)] *)
  vue_createParsedCommandLine : ParseConfigHost → string → ParsedCommandLine;
  (** [ts.parseJsonConfigFileContent({}, parseConfigHost, rootPath,
      tsConfig, 'jsconfig.json')] *)
  ts_parseJsonConfigFileContent :
    ParseConfigHost → string → CompilerOptions → string → ParsedCommandLine;
  (** [shared.normalizeFileName] *)
  normalizeFileName : string → string;
}.

(** A value that a call can hand back in place of a promise. *)
Inductive JsValue : Type :=
| JsBoolean (b : bool)
| JsString (s : string)
| JsStringObject (s : string).

(** How a call ends. *)
Inductive Completion : Type :=
| Normal (value : JsValue)
| ThrowTypeError.

(** What a property read finds on the prototype chain of an object
    that does not own the property: a function, given by what the
    call [f(uri)] does, or an object that cannot be called. *)
Inductive Inherited : Type :=
| InheritedFunction (apply : string → Completion)
| InheritedObject.

(** The members of [Object.prototype], each called as [f(uri)], that
    is with [this] undefined and a string as argument:
    [Object(uri)] wraps the string, [toString] names the undefined
    [this], [isPrototypeOf] answers [false] for an argument that is
    no object, the other functions fail on the undefined [this], and
    [__proto__] reads as the prototype itself, an object that is no
    function. *)
Definition objectPrototype (name : string) : option Inherited :=
  if String.eqb name "constructor"
  then Some (InheritedFunction (λ uri, Normal (JsStringObject uri)))
  else if String.eqb name "toString"
  then Some (InheritedFunction (λ _, Normal (JsString "[object Undefined]")))
  else if String.eqb name "isPrototypeOf"
  then Some (InheritedFunction (λ _, Normal (JsBoolean false)))
  else if existsb (String.eqb name)
            ["valueOf"; "hasOwnProperty"; "propertyIsEnumerable";
             "toLocaleString"; "__defineGetter__"; "__defineSetter__";
             "__lookupGetter__"; "__lookupSetter__"]
  then Some (InheritedFunction (λ _, ThrowTypeError))
  else if String.eqb name "__proto__"
  then Some InheritedObject
  else None.

(** [projectSys], at one moment. *)
Record System : Type := {
  sys_useCaseSensitiveFileNames : bool;
  sys_fileExists : string → bool;
  sys_readFile : string → option string;
  sys_readDirectory :
    string → list string → list string → list string → option nat →
    list string;
}.

(** The collaborators whose answers change with time: the file
    system, the store of open documents, the built-in schema handlers
    and the client behind [connection]. *)
Record World : Type := {
  projectSys : System;
  (** [documents.data.fsPathGet] *)
  documents_fsPathGet : string → option Document;
  (** [runtimeEnv.schemaRequestHandlers]: the handlers that the
      object owns, by scheme. *)
  schemaRequestHandlers : gmap string (string → Promise string string);
  (** What a read of a property that [schemaRequestHandlers] does not
      own finds on its prototype chain: [objectPrototype] for an
      object written as a literal, nothing for an object without
      prototype. *)
  schemaRequestHandlers_prototype : string → option Inherited;
  (** [connection.sendRequest(shared.GetDocumentContentRequest.type, ...)] *)
  connection_getDocumentContent : string → Promise string ResponseError;
}.

(** ** The state of a project *)

(** Calls that leave the project. *)
Inductive Effect : Type :=
| FileExists (fileName : string)
| ReadFile (fileName : string)
| CreateParsedCommandLine
| LoadCustomPlugins (dir : string)
| CreateLanguageService (ls : LanguageService)
| DisposeLanguageService (ls : LanguageService)
| BuiltInSchemaRequest (protocol uri : string)
| SendGetDocumentContent (uri : string).

#[global] Instance Effect_eq_dec : EqDecision Effect.
Proof. solve_decision. Defined.

(** The [let] variables and the [scripts] map of [createProject].
    [trace] is not a variable of the source: it records, oldest
    first, the outside calls made so far. *)
Record Project : Type := {
  typeRootVersion : Z;
  projectVersion : Z;
  vueLs : option LanguageService;
  parsedCommandLine : ParsedCommandLine;
  scripts : gmap string ScriptEntry;
  trace : list Effect;
}.

Definition set_typeRootVersion (v : Z) (p : Project) : Project :=
  {| typeRootVersion := v; projectVersion := projectVersion p;
     vueLs := vueLs p; parsedCommandLine := parsedCommandLine p;
     scripts := scripts p; trace := trace p |}.

Definition set_projectVersion (v : Z) (p : Project) : Project :=
  {| typeRootVersion := typeRootVersion p; projectVersion := v;
     vueLs := vueLs p; parsedCommandLine := parsedCommandLine p;
     scripts := scripts p; trace := trace p |}.

Definition set_vueLs (v : option LanguageService) (p : Project) : Project :=
  {| typeRootVersion := typeRootVersion p; projectVersion := projectVersion p;
     vueLs := v; parsedCommandLine := parsedCommandLine p;
     scripts := scripts p; trace := trace p |}.

Definition set_parsedCommandLine (v : ParsedCommandLine) (p : Project)
  : Project :=
  {| typeRootVersion := typeRootVersion p; projectVersion := projectVersion p;
     vueLs := vueLs p; parsedCommandLine := v;
     scripts := scripts p; trace := trace p |}.

Definition set_scripts (v : gmap string ScriptEntry) (p : Project) : Project :=
  {| typeRootVersion := typeRootVersion p; projectVersion := projectVersion p;
     vueLs := vueLs p; parsedCommandLine := parsedCommandLine p;
     scripts := v; trace := trace p |}.

Definition set_trace (v : list Effect) (p : Project) : Project :=
  {| typeRootVersion := typeRootVersion p; projectVersion := projectVersion p;
     vueLs := vueLs p; parsedCommandLine := parsedCommandLine p;
     scripts := scripts p; trace := v |}.

(** The state after the further outside calls [es]. *)
Definition after (es : list Effect) (p : Project) : Project :=
  set_trace (trace p ++ es) p.

(** Two states that agree on every variable of the source. *)
Definition same_variables (p q : Project) : Prop :=
  typeRootVersion p = typeRootVersion q ∧
  projectVersion p = projectVersion q ∧
  vueLs p = vueLs q ∧
  parsedCommandLine p = parsedCommandLine q ∧
  scripts p = scripts q.

(** ** State passing *)

Definition M (A : Type) : Type := Project → A * Project.

Definition ret {A : Type} (a : A) : M A := λ p, (a, p).

Definition bind {A B : Type} (m : M A) (k : A → M B) : M B :=
  λ p, let (a, p') := m p in k a p'.

Notation "'let*' x ':=' m 'in' k" := (bind m (λ x, k))
  (at level 10, x name, m at level 100, k at level 200).
Notation "m ';;' k" := (bind m (λ _, k))
  (at level 100, k at level 200, right associativity).

Definition gets {A : Type} (f : Project → A) : M A := λ p, (f p, p).

Definition modify (f : Project → Project) : M unit := λ p, (tt, f p).

(** Records one outside call. *)
Definition emit (e : Effect) : M unit :=
  modify (λ p, set_trace (trace p ++ [e]) p).

(** [for (const x of l) { body(x) }] *)
Fixpoint forEach {A : Type} (body : A → M unit) (l : list A) : M unit :=
  match l with
  | [] => ret tt
  | x :: l' => body x ;; forEach body l'
  end.

Definition exec {A : Type} (m : M A) (p : Project) : Project := (m p).2.
Definition eval {A : Type} (m : M A) (p : Project) : A := (m p).1.

(** ** The operations of a project *)

Section Project.
Context {env : Environment}.

(** *** The [scripts] path map *)

(** Modelled from the spec: [shared.createPathMap] is not among the
    sources.  Its map is a finite map from normalized keys to
    entries; [uriGet], [uriSet] and [uriDelete] reach an entry through
    the key of a URI, [fsPathGet] and [fsPathSet] through the key of a
    filesystem path, and [clear] drops every entry. *)
Definition scripts_uriGet (uri : string) : M (option ScriptEntry) :=
  gets (λ p, scripts p !! uriKey uri).

Definition scripts_uriSet (uri : string) (e : ScriptEntry) : M unit :=
  modify (λ p, set_scripts (<[uriKey uri := e]> (scripts p)) p).

Definition scripts_uriDelete (uri : string) : M unit :=
  modify (λ p, set_scripts (delete (uriKey uri) (scripts p)) p).

Definition scripts_fsPathGet (fileName : string) : M (option ScriptEntry) :=
  gets (λ p, scripts p !! fsPathKey fileName).

Definition scripts_fsPathSet (fileName : string) (e : ScriptEntry)
  : M unit :=
  modify (λ p, set_scripts (<[fsPathKey fileName := e]> (scripts p)) p).

Definition scripts_clear : M unit := modify (set_scripts ∅).

(** *** [createParsedCommandLine] *)

(** The [exts] that the wrapped [readDirectory] computes. *)
Definition readDirectory_exts (extensions include : list string)
  : list string :=
  fold_left
    (λ exts passiveExt,
       if existsb (λ i, endsWith i passiveExt) include
       then exts ++ [passiveExt] else exts)
    (indeterminateExts languageConfigs)
    (extensions ++ definitelyExts languageConfigs).

Definition parseConfigHost (sys : System) : ParseConfigHost :=
  {| pch_useCaseSensitiveFileNames := sys_useCaseSensitiveFileNames sys;
     pch_readDirectory := λ path extensions exclude include depth,
       sys_readDirectory sys path (readDirectory_exts extensions include)
         exclude include depth;
     pch_fileExists := sys_fileExists sys;
     pch_readFile := sys_readFile sys |}.

Definition parseCommandLine (sys : System) : ParsedCommandLine :=
  match tsConfig with
  | inl configFile =>
      vue_createParsedCommandLine (parseConfigHost sys) configFile
  | inr compilerOptions =>
      let content :=
        ts_parseJsonConfigFileContent (parseConfigHost sys) rootPath
          compilerOptions "jsconfig.json" in
      {| pcl_fileNames := map normalizeFileName (pcl_fileNames content);
         pcl_options :=
           {| outDir := None;
              settings := settings (pcl_options content) |};
         pcl_projectReferences := pcl_projectReferences content;
         pcl_vueOptions := [] |}
  end.

Definition createParsedCommandLine (w : World) : M ParsedCommandLine :=
  emit CreateParsedCommandLine ;;
  ret (parseCommandLine (projectSys w)).

(** *** [createProject]: the initial state *)

Definition createProject (w : World) : Project :=
  {| typeRootVersion := 0;
     projectVersion := 0;
     vueLs := None;
     parsedCommandLine := parseCommandLine (projectSys w);
     scripts := ∅;
     trace := [CreateParsedCommandLine] |}.

(** *** [onWorkspaceFilesChanged] *)

Definition isCreated (change : FileEvent) : bool :=
  bool_decide (change_type change = Created).
Definition isChanged (change : FileEvent) : bool :=
  bool_decide (change_type change = Changed).
Definition isDeleted (change : FileEvent) : bool :=
  bool_decide (change_type change = Deleted).

(** [script.version = -1] or [script.version--], on the entry
    object that the map holds. *)
Definition invalidate (script : ScriptEntry) : ScriptEntry :=
  {| version := if 0 <=? version script then -1 else version script - 1;
     fileName := fileName script;
     snapshot := snapshot script;
     snapshotVersion := snapshotVersion script |}.

(** The body of the [for] loop. *)
Definition recordChange (change : FileEvent) : M unit :=
  let* script := scripts_uriGet (change_uri change) in
  match script with
  | Some s =>
      if isChanged change || isCreated change
      then scripts_uriSet (change_uri change) (invalidate s)
      else if isDeleted change
      then scripts_uriDelete (change_uri change)
      else ret tt
  | None => ret tt
  end ;;
  modify (λ p, set_projectVersion (projectVersion p + 1) p).

Definition onWorkspaceFilesChanged (w : World) (changes : list FileEvent)
  : M unit :=
  forEach recordChange changes ;;
  let creates := filter (λ c, change_type c = Created) changes in
  let deletes := filter (λ c, change_type c = Deleted) changes in
  if negb (Nat.eqb (length creates) 0) || negb (Nat.eqb (length deletes) 0)
  then
    let* parsed := createParsedCommandLine w in
    modify (set_parsedCommandLine parsed) ;;
    modify (λ p, set_typeRootVersion (typeRootVersion p + 1) p)
  else ret tt.

(** What one event does to the registry: the map part of
    [recordChange], as a function on maps. *)
Definition changeScripts (change : FileEvent) (m : gmap string ScriptEntry)
  : gmap string ScriptEntry :=
  match m !! uriKey (change_uri change) with
  | Some s =>
      match change_type change with
      | Deleted => delete (uriKey (change_uri change)) m
      | _ => <[uriKey (change_uri change) := invalidate s]> m
      end
  | None => m
  end.

(** [creates.length || deletes.length], as a test on the batch. *)
Definition structural (changes : list FileEvent) : bool :=
  existsb (λ c, isCreated c || isDeleted c) changes.

(** *** [onDocumentUpdated] *)

Definition onDocumentUpdated : M unit :=
  modify (λ p, set_projectVersion (projectVersion p + 1) p).

(** *** [getLanguageService] *)

(** What [runtimeEnv.schemaRequestHandlers[protocol]] reads: a
    handler that the object owns, else whatever the prototype chain
    holds under that name, else [undefined]. *)
Inductive Property : Type :=
| OwnHandler (handler : string → Promise string string)
| InheritedMember (member : Inherited).

Definition schemaRequestHandlers_get (w : World) (protocol : string)
  : option Property :=
  match schemaRequestHandlers w !! protocol with
  | Some handler => Some (OwnHandler handler)
  | None => InheritedMember <$> schemaRequestHandlers_prototype w protocol
  end.

(** How a call of the content-resolution closure ends: with a
    promise, with a value that is no promise, or with a [TypeError]
    thrown to the caller. *)
Inductive Resolution : Type :=
| Promised (promise : Promise string string)
| Returned (value : JsValue)
| Thrown.

(** The content-resolution closure handed to the factory.  Whatever
    the property read finds is truthy and is called. *)
Definition schemaRequest (w : World) (uri : string) : M Resolution :=
  let protocol := protocolOf uri in
  match schemaRequestHandlers_get w protocol with
  | Some (OwnHandler builtInHandler) =>
      emit (BuiltInSchemaRequest protocol uri) ;;
      ret (Promised (builtInHandler uri))
  | Some (InheritedMember (InheritedFunction apply)) =>
      ret match apply uri with
          | Normal value => Returned value
          | ThrowTypeError => Thrown
          end
  | Some (InheritedMember InheritedObject) => ret Thrown
  | None =>
      if match languageFeatures options with
         | Some features => schemaRequestService features
         | None => false
         end
      then
        emit (SendGetDocumentContent uri) ;;
        ret (Promised
               (promise_then (connection_getDocumentContent w uri)
                  (λ responseText, Fulfilled responseText)
                  (λ error, Rejected (error_message error))))
      else
        ret (Promised
               (Rejected "clientHandledGetDocumentContentRequest is false"))
  end.

(** The outside calls that [schemaRequest] makes. *)
Definition schemaRequest_calls (w : World) (uri : string) : list Effect :=
  match schemaRequestHandlers_get w (protocolOf uri) with
  | Some (OwnHandler _) => [BuiltInSchemaRequest (protocolOf uri) uri]
  | Some (InheritedMember _) => []
  | None =>
      if match languageFeatures options with
         | Some features => schemaRequestService features
         | None => false
         end
      then [SendGetDocumentContent uri] else []
  end.

(** How many instances the factory has built. *)
Definition isCreateLanguageService (e : Effect) : bool :=
  match e with CreateLanguageService _ => true | _ => false end.

Definition factoryCalls (p : Project) : nat :=
  length (List.filter isCreateLanguageService (trace p)).

(** [languageConfigs.createLanguageService(...)], its arguments
    evaluated first.  The closures among the arguments are only
    handed over; the content-resolution one is [schemaRequest]. *)
Definition createLanguageService : M LanguageService :=
  emit (LoadCustomPlugins rootPath) ;;
  let* built := gets factoryCalls in
  let ls := {| instance := built |} in
  emit (CreateLanguageService ls) ;;
  ret ls.

Definition getLanguageService : M LanguageService :=
  let* current := gets vueLs in
  match current with
  | None =>
      let* ls := createLanguageService in
      modify (set_vueLs (Some ls)) ;;
      ret ls
  | Some ls => ret ls
  end.

Definition getLanguageServiceDontCreate : M (option LanguageService) :=
  gets vueLs.

Definition getParsedCommandLine : M ParsedCommandLine :=
  gets parsedCommandLine.

(** *** The language service host *)

Definition getProjectVersion : M string :=
  gets (λ p, number_toString (projectVersion p)).

Definition getTypeRootsVersion : M Z := gets typeRootVersion.

Definition getScriptVersion (w : World) (name : string) : M string :=
  match documents_fsPathGet w name with
  | Some doc => ret (number_toString (doc_version doc))
  | None =>
      let* script := scripts_fsPathGet name in
      ret match script with
          | Some s => number_toString (version s)
          | None => ""
          end
  end.

Definition fileExists (w : World) (name : string) : M bool :=
  emit (FileExists name) ;;
  ret (sys_fileExists (projectSys w) name).

Definition readFile (w : World) (name : string) : M (option string) :=
  emit (ReadFile name) ;;
  ret (sys_readFile (projectSys w) name).

(** [script.snapshotVersion === script.version] *)
Definition snapshotIsCurrent (script : ScriptEntry) : bool :=
  bool_decide (snapshotVersion script = Some (version script)).

(** [script.snapshot = snapshot; script.snapshotVersion =
    script.version], on the entry object that the map holds. *)
Definition withSnapshot (snap : IScriptSnapshot) (script : ScriptEntry)
  : ScriptEntry :=
  {| version := version script;
     fileName := fileName script;
     snapshot := Some snap;
     snapshotVersion := Some (version script) |}.

Definition getScriptSnapshot (w : World) (name : string)
  : M (option IScriptSnapshot) :=
  match documents_fsPathGet w name with
  | Some doc => ret (Some (doc_getSnapshot doc))
  | None =>
      let* script := scripts_fsPathGet name in
      if match script with
         | Some s => snapshotIsCurrent s
         | None => false
         end
      then ret match script with
               | Some s => snapshot s
               | None => None
               end
      else
        let* found := fileExists w name in
        if found then
          let* text := readFile w name in
          match text with
          | Some text =>
              let snap := ScriptSnapshot_fromString text in
              match script with
              | Some s => scripts_fsPathSet name (withSnapshot snap s)
              | None =>
                  scripts_fsPathSet name
                    {| version := -1;
                       fileName := name;
                       snapshot := Some snap;
                       snapshotVersion := Some (-1) |}
              end ;;
              ret (Some snap)
          | None => ret None
          end
        else ret None
  end.

(** *** [dispose] *)

Definition dispose : M unit :=
  let* current := gets vueLs in
  match current with
  | Some ls => emit (DisposeLanguageService ls)
  | None => ret tt
  end ;;
  scripts_clear.

(** *** Histories of calls *)

(** One call on the object that [createProject] returns, on the
    host it gives to the language service, or on the
    content-resolution closure. *)
Inductive Call : Type :=
| CallOnWorkspaceFilesChanged (changes : list FileEvent)
| CallOnDocumentUpdated
| CallGetLanguageService
| CallGetLanguageServiceDontCreate
| CallGetParsedCommandLine
| CallDispose
| CallGetProjectVersion
| CallGetTypeRootsVersion
| CallGetScriptVersion (name : string)
| CallGetScriptSnapshot (name : string)
| CallSchemaRequest (uri : string).

Definition discard {A : Type} (m : M A) : M unit := m ;; ret tt.

Definition call (w : World) (c : Call) : M unit :=
  match c with
  | CallOnWorkspaceFilesChanged changes => onWorkspaceFilesChanged w changes
  | CallOnDocumentUpdated => onDocumentUpdated
  | CallGetLanguageService => discard getLanguageService
  | CallGetLanguageServiceDontCreate => discard getLanguageServiceDontCreate
  | CallGetParsedCommandLine => discard getParsedCommandLine
  | CallDispose => dispose
  | CallGetProjectVersion => discard getProjectVersion
  | CallGetTypeRootsVersion => discard getTypeRootsVersion
  | CallGetScriptVersion name => discard (getScriptVersion w name)
  | CallGetScriptSnapshot name => discard (getScriptSnapshot w name)
  | CallSchemaRequest uri => discard (schemaRequest w uri)
  end.

(** A history: each call with the world it meets. *)
Definition calls (history : list (World * Call)) : M unit :=
  forEach (λ wc, call wc.1 wc.2) history.
(** *** [getScriptFileNames] *)

(** [fileNames.add(x)] on a [Set], kept as the list of its members in
    insertion order. *)
Definition Set_add (x : string) (members : list string) : list string :=
  if decide (x ∈ members) then members else members ++ [x].

(** [new Set(l)] *)
Definition Set_from (l : list string) : list string :=
  fold_left (λ members x, Set_add x members) l [].

(** [scripts.values()].  The finite map does not keep the order in
    which entries were inserted, so the entries come in the map's own
    enumeration order. *)
Definition scripts_values : M (list ScriptEntry) :=
  gets (λ p, (map_to_list (scripts p)).*2).

Definition getScriptFileNames : M (list string) :=
  let* configured := gets (λ p, pcl_fileNames (parsedCommandLine p)) in
  let* values := scripts_values in
  ret (fold_left (λ members script, Set_add (fileName script) members)
         values (Set_from configured)).

(** *** Measures and invariants of a state *)

Definition isCreateParsedCommandLine (e : Effect) : bool :=
  match e with CreateParsedCommandLine => true | _ => false end.

(** How often [createParsedCommandLine] has run. *)
Definition parseCalls (p : Project) : nat :=
  length (List.filter isCreateParsedCommandLine (trace p)).

(** What holds of every entry that the project itself has stored:
    the key is the key of its [fileName], the version is negative, a
    snapshot is cached, and the version the snapshot was taken at is
    negative and not below the current version. *)
Definition entry_ok (k : string) (e : ScriptEntry) : Prop :=
  k = fsPathKey (fileName e) ∧
  version e < 0 ∧
  is_Some (snapshot e) ∧
  ∃ sv : Z, snapshotVersion e = Some sv ∧ version e ≤ sv ∧ sv < 0.

Definition registry_ok (m : gmap string ScriptEntry) : Prop :=
  ∀ (k : string) (e : ScriptEntry), m !! k = Some e → entry_ok k e.

(** The shape of a step: either one run of [createParsedCommandLine],
    with [typeRootVersion] and [projectVersion] going up, or no such
    run, with [typeRootVersion] and the parsed configuration kept. *)
Definition step_shape (w : World) (p p' : Project) (es : list Effect)
  : Prop :=
  (es = [CreateParsedCommandLine] ∧
   typeRootVersion p' = typeRootVersion p + 1 ∧
   projectVersion p + 1 ≤ projectVersion p' ∧
   parsedCommandLine p' = parseCommandLine (projectSys w)) ∨
  (List.filter isCreateParsedCommandLine es = [] ∧
   typeRootVersion p' = typeRootVersion p ∧
   projectVersion p ≤ projectVersion p' ∧
   parsedCommandLine p' = parsedCommandLine p).
End Project.

(** ** A small project

    A concrete environment and world, used to run the operations. *)

Definition demoEnvironment : Environment :=
  {| uriKey := λ uri, String.substring 7 (String.length uri - 7) uri;
     fsPathKey := λ name, name;
     rootPath := "/";
     tsConfig := inl "/tsconfig.json";
     options :=
       {| languageFeatures := Some {| schemaRequestService := true |} |};
     languageConfigs :=
       {| definitelyExts := [".vue"]; indeterminateExts := [".md"] |};
     vue_createParsedCommandLine := λ host configFile,
       {| pcl_fileNames :=
            pch_readDirectory host "/" [".ts"] [] ["**/*"] None;
          pcl_options := {| outDir := None; settings := [] |};
          pcl_projectReferences := [];
          pcl_vueOptions := [] |};
     ts_parseJsonConfigFileContent := λ host root compilerOptions name,
       {| pcl_fileNames := [];
          pcl_options := compilerOptions;
          pcl_projectReferences := [];
          pcl_vueOptions := [] |};
     normalizeFileName := λ name, name |}.

Definition demoSystem : System :=
  {| sys_useCaseSensitiveFileNames := true;
     sys_fileExists := λ name, String.eqb name "/a.ts";
     sys_readFile := λ name,
       if String.eqb name "/a.ts" then Some "export {}" else None;
     sys_readDirectory := λ path exts exclude include depth, ["/a.ts"] |}.

Definition demoWorld : World :=
  {| projectSys := demoSystem;
     documents_fsPathGet := λ name,
       if String.eqb name "/open.vue"
       then Some {| doc_version := 3;
                    doc_getSnapshot := ScriptSnapshot_fromString "<template/>" |}
       else None;
     schemaRequestHandlers :=
       {[ "file" := λ uri, Fulfilled "{}" ]};
     schemaRequestHandlers_prototype := objectPrototype;
     connection_getDocumentContent := λ uri,
       Rejected {| error_code := -32601; error_message := "offline" |} |}.

(** The entry that [getScriptSnapshot] stores for a path that was not
    tracked. *)
Definition freshEntry (name text : string) : ScriptEntry :=
  {| version := -1;
     fileName := name;
     snapshot := Some (ScriptSnapshot_fromString text);
     snapshotVersion := Some (-1) |}.

(** The demo project once [/a.ts] has been read. *)
Definition demoProject : Project :=
  exec (getScriptSnapshot (env := demoEnvironment) demoWorld "/a.ts")
    (createProject (env := demoEnvironment) demoWorld).

(** The demo project after [dispose]. *)
Definition demoDisposed : Project := exec dispose demoProject.

Definition demoChanged : FileEvent :=
  {| change_uri := "file:///a.ts"; change_type := Changed |}.

Definition demoCreated : FileEvent :=
  {| change_uri := "file:///new.ts"; change_type := Created |}.

Definition demoDeleted : FileEvent :=
  {| change_uri := "file:///old.ts"; change_type := Deleted |}.

(** The demo environment with an options object for [tsConfig]. *)
Definition demoInlineEnvironment : Environment :=
  {| uriKey := uriKey (Environment := demoEnvironment);
     fsPathKey := fsPathKey (Environment := demoEnvironment);
     rootPath := "/";
     tsConfig := inr {| outDir := Some "/dist"; settings := [] |};
     options := options (Environment := demoEnvironment);
     languageConfigs := languageConfigs (Environment := demoEnvironment);
     vue_createParsedCommandLine :=
       vue_createParsedCommandLine (Environment := demoEnvironment);
     ts_parseJsonConfigFileContent := λ host root compilerOptions name,
       {| pcl_fileNames :=
            pch_readDirectory host root [".js"] [] ["**/*"] None;
          pcl_options := compilerOptions;
          pcl_projectReferences := [];
          pcl_vueOptions := [] |};
     normalizeFileName := λ name, name |}.

(** The history that reads [/a.ts] once. *)
Definition demoHistory : list (World * Call) :=
  [(demoWorld, CallGetScriptSnapshot "/a.ts")].

Definition demoChangedTwice : list FileEvent := [demoChanged; demoChanged].

(** * Properties *)

(** Unfolds the state-passing combinators. *)
Ltac run_m :=
  unfold exec, eval, discard, bind, gets, modify, ret, emit in *;
  simpl in *.

Section Properties.
Context {env : Environment}.

(** ** The helpers on strings and numbers *)

Example number_toString_negative : number_toString (-1) = "-1".
Proof. reflexivity. Qed.

Example number_toString_zero : number_toString 0 = "0".
Proof. reflexivity. Qed.

Example protocolOf_http : protocolOf "http://json.schemastore.org/x" = "http".
Proof. reflexivity. Qed.

Example protocolOf_no_colon : protocolOf "untitled" = "".
Proof. reflexivity. Qed.

Example endsWith_vue : endsWith "src/**/*.vue" ".vue" = true.
Proof. reflexivity. Qed.

Example endsWith_longer_suffix : endsWith "ue" ".vue" = false.
Proof. reflexivity. Qed.

(** ** The loop of [onWorkspaceFilesChanged] *)

Lemma recordChange_run (change : FileEvent) (p : Project) :
  recordChange change p =
  (tt, set_projectVersion (projectVersion p + 1)
         (set_scripts (changeScripts change (scripts p)) p)).
Proof.
  unfold recordChange, changeScripts, scripts_uriGet, scripts_uriSet,
    scripts_uriDelete, isChanged, isCreated, isDeleted.
  run_m.
  destruct (scripts p !! uriKey (change_uri change)) as [s|];
    destruct p; [destruct (change_type change)|]; reflexivity.
Qed.

Lemma forEach_recordChange_run (changes : list FileEvent) (p : Project) :
  forEach recordChange changes p =
  (tt, set_projectVersion (projectVersion p + Z.of_nat (length changes))
         (set_scripts (fold_left (λ m c, changeScripts c m) changes
                         (scripts p)) p)).
Proof.
  revert p. induction changes as [|c changes IH]; intros p.
  - destruct p. unfold set_projectVersion, set_scripts. simpl.
    rewrite Z.add_0_r. reflexivity.
  - cbn [forEach]. unfold bind at 1. rewrite recordChange_run, IH.
    unfold set_projectVersion, set_scripts. simpl. f_equal. f_equal. lia.
Qed.

Lemma filter_length_structural (changes : list FileEvent) :
  negb (Nat.eqb (length (filter (λ c, change_type c = Created) changes)) 0)
  || negb (Nat.eqb (length (filter (λ c, change_type c = Deleted) changes)) 0)
  = structural changes.
Proof.
  unfold structural, isCreated, isDeleted.
  induction changes as [|c changes IH]; [reflexivity|].
  rewrite !filter_cons. simpl.
  destruct (change_type c); simpl; try exact IH.
  - reflexivity.
  - rewrite orb_true_r. reflexivity.
Qed.

Lemma onWorkspaceFilesChanged_run (w : World) (changes : list FileEvent)
    (p : Project) :
  exec (onWorkspaceFilesChanged w changes) p =
  let m := fold_left (λ m c, changeScripts c m) changes (scripts p) in
  let pv := projectVersion p + Z.of_nat (length changes) in
  if structural changes
  then {| typeRootVersion := typeRootVersion p + 1;
          projectVersion := pv;
          vueLs := vueLs p;
          parsedCommandLine := parseCommandLine (projectSys w);
          scripts := m;
          trace := trace p ++ [CreateParsedCommandLine] |}
  else {| typeRootVersion := typeRootVersion p;
          projectVersion := pv;
          vueLs := vueLs p;
          parsedCommandLine := parsedCommandLine p;
          scripts := m;
          trace := trace p |}.
Proof.
  unfold onWorkspaceFilesChanged, exec.
  unfold bind at 1. rewrite forEach_recordChange_run.
  rewrite filter_length_structural.
  destruct (structural changes); reflexivity.
Qed.

(** C1. For a batch of N events, [projectVersion] after
    [onWorkspaceFilesChanged] is its value before plus N, whatever the
    kinds of the events and whether or not their paths are tracked. *)
Theorem onWorkspaceFilesChanged_projectVersion
    (w : World) (changes : list FileEvent) (p : Project) :
  projectVersion (exec (onWorkspaceFilesChanged w changes) p) =
  projectVersion p + Z.of_nat (length changes).
Proof.
  rewrite onWorkspaceFilesChanged_run. simpl.
  destruct (structural changes); reflexivity.
Qed.

(** ** Invalidation of a tracked entry *)

Lemma invalidate_version (s : ScriptEntry) :
  version (invalidate s) = (if 0 <=? version s then -1 else version s - 1).
Proof. reflexivity. Qed.

Lemma invalidate_negative (s : ScriptEntry) : version (invalidate s) < 0.
Proof.
  rewrite invalidate_version. destruct (Z.leb_spec 0 (version s)); lia.
Qed.

Lemma invalidate_differs (s : ScriptEntry) :
  version (invalidate s) ≠ version s.
Proof.
  rewrite invalidate_version. destruct (Z.leb_spec 0 (version s)); lia.
Qed.

Lemma changeScripts_update (c : FileEvent) (m : gmap string ScriptEntry)
    (s : ScriptEntry) :
  change_type c ≠ Deleted →
  m !! uriKey (change_uri c) = Some s →
  changeScripts c m !! uriKey (change_uri c) = Some (invalidate s).
Proof.
  intros Hkind Hs. unfold changeScripts. rewrite Hs.
  destruct (change_type c); try congruence; apply lookup_insert_eq.
Qed.

Lemma onWorkspaceFilesChanged_scripts (w : World) (changes : list FileEvent)
    (p : Project) :
  scripts (exec (onWorkspaceFilesChanged w changes) p) =
  fold_left (λ m c, changeScripts c m) changes (scripts p).
Proof.
  rewrite onWorkspaceFilesChanged_run. simpl.
  destruct (structural changes); reflexivity.
Qed.

(** C3. A [Changed] or [Created] event on a tracked path sets the
    entry's version to -1 when it was at least 0 and decrements it
    when it was negative.  A [Changed] event that follows on the same
    path, in a later batch or in the same one, again yields a version
    different from the one the previous event left. *)
Theorem changed_event_invalidates_version
    (w w' : World) (p : Project) (c c' : FileEvent) (s : ScriptEntry) :
  change_type c = Changed ∨ change_type c = Created →
  scripts p !! uriKey (change_uri c) = Some s →
  let key := uriKey (change_uri c) in
  let p1 := exec (onWorkspaceFilesChanged w [c]) p in
  ∃ s1 : ScriptEntry,
    scripts p1 !! key = Some s1 ∧
    version s1 = (if 0 <=? version s then -1 else version s - 1) ∧
    version s1 ≠ version s ∧
    (change_type c' = Changed →
     uriKey (change_uri c') = key →
     ∃ s2 : ScriptEntry,
       scripts (exec (onWorkspaceFilesChanged w' [c']) p1) !! key = Some s2 ∧
       scripts (exec (onWorkspaceFilesChanged w [c; c']) p) !! key = Some s2 ∧
       version s2 = version s1 - 1 ∧
       version s2 ≠ version s1).
Proof.
  intros Hkind Hs key p1.
  assert (Hc : change_type c ≠ Deleted) by (destruct Hkind; congruence).
  assert (H1 : scripts p1 !! key = Some (invalidate s)).
  { subst p1. rewrite onWorkspaceFilesChanged_scripts. simpl.
    apply changeScripts_update; assumption. }
  exists (invalidate s). split; [exact H1|].
  split; [apply invalidate_version|].
  split; [apply invalidate_differs|].
  intros Hkind' Hkey.
  assert (Hc' : change_type c' ≠ Deleted) by congruence.
  exists (invalidate (invalidate s)).
  assert (Hv : version (invalidate (invalidate s)) =
               version (invalidate s) - 1).
  { rewrite (invalidate_version (invalidate s)).
    pose proof (invalidate_negative s).
    destruct (Z.leb_spec 0 (version (invalidate s))); lia. }
  repeat split.
  - rewrite onWorkspaceFilesChanged_scripts. simpl. rewrite <- Hkey.
    apply changeScripts_update; [assumption|]. rewrite Hkey. exact H1.
  - rewrite onWorkspaceFilesChanged_scripts. simpl. rewrite <- Hkey.
    apply changeScripts_update; [assumption|]. rewrite Hkey.
    apply changeScripts_update; assumption.
  - exact Hv.
  - lia.
Qed.

(** ** Structural changes *)

Lemma structural_true (changes : list FileEvent) :
  structural changes = true ↔
  ∃ c, c ∈ changes ∧ (change_type c = Created ∨ change_type c = Deleted).
Proof.
  unfold structural. rewrite existsb_exists. split.
  - intros (c & Hin & Hc). exists c. split; [by apply list_elem_of_In|].
    unfold isCreated, isDeleted in Hc.
    apply orb_true_iff in Hc as [Hc|Hc]; apply bool_decide_eq_true in Hc; auto.
  - intros (c & Hin & Hc). exists c. split; [by apply list_elem_of_In|].
    unfold isCreated, isDeleted. apply orb_true_iff.
    destruct Hc as [Hc|Hc]; [left|right]; by apply bool_decide_eq_true.
Qed.

Lemma structural_false (changes : list FileEvent) :
  (∀ c, c ∈ changes → change_type c = Changed) → structural changes = false.
Proof.
  intros Hall. destruct (structural changes) eqn:E; [|reflexivity].
  apply structural_true in E as (c & Hin & Hc).
  rewrite (Hall c Hin) in Hc. destruct Hc; discriminate.
Qed.

(** C4. A batch holding at least one [Created] or [Deleted] event
    makes [onWorkspaceFilesChanged] run [createParsedCommandLine] once
    and add one to [typeRootVersion], however many such events it
    holds; a batch of [Changed] events only leaves both as they were.
    [onDocumentUpdated] never changes [typeRootVersion]. *)
Theorem onWorkspaceFilesChanged_typeRootVersion
    (w : World) (changes : list FileEvent) (p : Project) :
  let p' := exec (onWorkspaceFilesChanged w changes) p in
  ((∃ c, c ∈ changes ∧
         (change_type c = Created ∨ change_type c = Deleted)) →
   typeRootVersion p' = typeRootVersion p + 1 ∧
   parsedCommandLine p' = parseCommandLine (projectSys w) ∧
   trace p' = trace p ++ [CreateParsedCommandLine]) ∧
  ((∀ c, c ∈ changes → change_type c = Changed) →
   typeRootVersion p' = typeRootVersion p ∧
   parsedCommandLine p' = parsedCommandLine p ∧
   trace p' = trace p) ∧
  typeRootVersion (exec onDocumentUpdated p) = typeRootVersion p.
Proof.
  intros p'. subst p'. rewrite onWorkspaceFilesChanged_run. simpl.
  split; [|split].
  - intros H. apply structural_true in H. rewrite H. auto.
  - intros H. apply structural_false in H. rewrite H. auto.
  - reflexivity.
Qed.

(** ** [getScriptSnapshot] *)

Lemma getScriptSnapshot_open (w : World) (name : string) (p : Project)
    (doc : Document) :
  documents_fsPathGet w name = Some doc →
  getScriptSnapshot w name p = (Some (doc_getSnapshot doc), p).
Proof. intros Hdoc. unfold getScriptSnapshot. rewrite Hdoc. reflexivity. Qed.

Lemma getScriptSnapshot_hit (w : World) (name : string) (p : Project)
    (s : ScriptEntry) :
  documents_fsPathGet w name = None →
  scripts p !! fsPathKey name = Some s →
  snapshotVersion s = Some (version s) →
  getScriptSnapshot w name p = (snapshot s, p).
Proof.
  intros Hdoc Hs Hv. unfold getScriptSnapshot, scripts_fsPathGet.
  rewrite Hdoc. run_m. rewrite Hs. unfold snapshotIsCurrent.
  rewrite bool_decide_eq_true_2 by exact Hv. reflexivity.
Qed.

(** Every other case goes to the file system. *)
Lemma getScriptSnapshot_miss (w : World) (name : string) (p : Project) :
  documents_fsPathGet w name = None →
  match scripts p !! fsPathKey name with
  | Some s => snapshotVersion s ≠ Some (version s)
  | None => True
  end →
  getScriptSnapshot w name p =
  if sys_fileExists (projectSys w) name then
    match sys_readFile (projectSys w) name with
    | Some text =>
        (Some (ScriptSnapshot_fromString text),
         set_scripts
           (<[fsPathKey name :=
                match scripts p !! fsPathKey name with
                | Some s => withSnapshot (ScriptSnapshot_fromString text) s
                | None => freshEntry name text
                end]> (scripts p))
           (after [FileExists name; ReadFile name] p))
    | None => (None, after [FileExists name; ReadFile name] p)
    end
  else (None, after [FileExists name] p).
Proof.
  intros Hdoc Hs.
  unfold getScriptSnapshot, scripts_fsPathGet, scripts_fsPathSet, fileExists,
    readFile, after, freshEntry.
  rewrite Hdoc. run_m.
  assert (Hmiss : match scripts p !! fsPathKey name with
                  | Some s => snapshotIsCurrent s
                  | None => false
                  end = false).
  { destruct (scripts p !! fsPathKey name) as [s|]; [|reflexivity].
    unfold snapshotIsCurrent. by apply bool_decide_eq_false_2. }
  rewrite Hmiss.
  destruct (sys_fileExists (projectSys w) name); [|reflexivity].
  destruct (sys_readFile (projectSys w) name) as [text|].
  - destruct (scripts p !! fsPathKey name);
      unfold set_scripts, set_trace; simpl;
      rewrite <- app_assoc; reflexivity.
  - unfold set_trace; simpl. rewrite <- app_assoc. reflexivity.
Qed.

(** C2. For an open document [getScriptSnapshot] returns the store's
    snapshot and touches nothing.  For a path that is not open and has
    a registry entry, the cached snapshot is returned, with no call to
    the file system and no change of state, exactly when the entry's
    [snapshotVersion] equals its [version]; otherwise the file system
    is asked ([fileExists], then [readFile] when the file exists) and
    the result is what it answers. *)
Theorem getScriptSnapshot_cache (w : World) (name : string) (p : Project) :
  (∀ doc : Document,
     documents_fsPathGet w name = Some doc →
     getScriptSnapshot w name p = (Some (doc_getSnapshot doc), p)) ∧
  (∀ s : ScriptEntry,
     documents_fsPathGet w name = None →
     scripts p !! fsPathKey name = Some s →
     (snapshotVersion s = Some (version s) →
      getScriptSnapshot w name p = (snapshot s, p)) ∧
     (snapshotVersion s ≠ Some (version s) →
      trace (exec (getScriptSnapshot w name) p) =
        trace p ++ FileExists name ::
          (if sys_fileExists (projectSys w) name then [ReadFile name] else [])
      ∧ eval (getScriptSnapshot w name) p =
        if sys_fileExists (projectSys w) name
        then ScriptSnapshot_fromString <$> sys_readFile (projectSys w) name
        else None) ∧
     (trace (exec (getScriptSnapshot w name) p) = trace p ↔
      snapshotVersion s = Some (version s))).
Proof.
  split; [intros doc; apply getScriptSnapshot_open|].
  intros s Hdoc Hs.
  assert (Hmiss : snapshotVersion s ≠ Some (version s) →
            trace (exec (getScriptSnapshot w name) p) =
              trace p ++ FileExists name ::
                (if sys_fileExists (projectSys w) name
                 then [ReadFile name] else [])
            ∧ eval (getScriptSnapshot w name) p =
              if sys_fileExists (projectSys w) name
              then ScriptSnapshot_fromString <$>
                     sys_readFile (projectSys w) name
              else None).
  { intros Hv. unfold exec, eval.
    rewrite getScriptSnapshot_miss by (try rewrite Hs; assumption).
    destruct (sys_fileExists (projectSys w) name); [|split; reflexivity].
    destruct (sys_readFile (projectSys w) name); split; reflexivity. }
  split; [by apply getScriptSnapshot_hit|].
  split; [exact Hmiss|].
  split.
  - intros Htrace.
    destruct (decide (snapshotVersion s = Some (version s))) as [|Hv];
      [assumption|].
    destruct (Hmiss Hv) as [Ht _]. rewrite Ht in Htrace.
    apply (f_equal length) in Htrace. rewrite length_app in Htrace.
    simpl in Htrace. lia.
  - intros Hv. unfold exec.
    rewrite (getScriptSnapshot_hit w name p s) by assumption. reflexivity.
Qed.

Lemma getScriptVersion_registry (w : World) (name : string) (p : Project) :
  documents_fsPathGet w name = None →
  eval (getScriptVersion w name) p =
  match scripts p !! fsPathKey name with
  | Some s => number_toString (version s)
  | None => ""
  end.
Proof.
  intros Hdoc. unfold getScriptVersion, scripts_fsPathGet. rewrite Hdoc.
  reflexivity.
Qed.

(** C9. For a path that is neither open nor tracked, a
    [getScriptSnapshot] that finds the file and reads its text stores a
    new entry whose [version] and [snapshotVersion] are both -1; the
    next [getScriptSnapshot] answers from that entry without a file
    system call, and [getScriptVersion] answers ["-1"]. *)
Theorem getScriptSnapshot_creates_entry
    (w w' : World) (name text : string) (p : Project) :
  documents_fsPathGet w name = None →
  scripts p !! fsPathKey name = None →
  sys_fileExists (projectSys w) name = true →
  sys_readFile (projectSys w) name = Some text →
  let p' := exec (getScriptSnapshot w name) p in
  eval (getScriptSnapshot w name) p = Some (ScriptSnapshot_fromString text) ∧
  scripts p' !! fsPathKey name =
    Some {| version := -1;
            fileName := name;
            snapshot := Some (ScriptSnapshot_fromString text);
            snapshotVersion := Some (-1) |} ∧
  (documents_fsPathGet w' name = None →
   eval (getScriptVersion w' name) p' = "-1" ∧
   getScriptSnapshot w' name p' = (Some (ScriptSnapshot_fromString text), p')).
Proof.
  intros Hdoc Hnone Hexists Hread p'.
  assert (Hrun : getScriptSnapshot w name p =
            (Some (ScriptSnapshot_fromString text),
             set_scripts (<[fsPathKey name := freshEntry name text]> (scripts p))
               (after [FileExists name; ReadFile name] p))).
  { rewrite getScriptSnapshot_miss by (try rewrite Hnone; done).
    rewrite Hexists, Hread, Hnone. reflexivity. }
  assert (Hentry : scripts p' !! fsPathKey name = Some (freshEntry name text)).
  { subst p'. unfold exec. rewrite Hrun. simpl. apply lookup_insert_eq. }
  split; [unfold eval; rewrite Hrun; reflexivity|].
  split; [exact Hentry|].
  intros Hdoc'. split.
  - rewrite getScriptVersion_registry by assumption. rewrite Hentry.
    reflexivity.
  - rewrite (getScriptSnapshot_hit w' name p' (freshEntry name text));
      done.
Qed.

(** C10. [getScriptSnapshot] changes neither counter, nor the parsed
    configuration, nor the stored language service.  Entries under
    other keys are left as they are, every entry that existed still
    exists with the same [version] and [fileName], and for an entry
    that existed under the queried key the registry is either
    unchanged or differs only in that entry's [snapshot] and
    [snapshotVersion], the latter set to the entry's [version]. *)
Theorem getScriptSnapshot_frame (w : World) (name : string) (p : Project) :
  let p' := exec (getScriptSnapshot w name) p in
  projectVersion p' = projectVersion p ∧
  typeRootVersion p' = typeRootVersion p ∧
  parsedCommandLine p' = parsedCommandLine p ∧
  vueLs p' = vueLs p ∧
  (∀ k : string, k ≠ fsPathKey name → scripts p' !! k = scripts p !! k) ∧
  (∀ (k : string) (e : ScriptEntry),
     scripts p !! k = Some e →
     ∃ e' : ScriptEntry,
       scripts p' !! k = Some e' ∧
       version e' = version e ∧ fileName e' = fileName e) ∧
  (∀ s : ScriptEntry,
     scripts p !! fsPathKey name = Some s →
     scripts p' = scripts p ∨
     ∃ snap : IScriptSnapshot,
       snapshotVersion s ≠ Some (version s) ∧
       scripts p' =
         <[fsPathKey name :=
             {| version := version s;
                fileName := fileName s;
                snapshot := Some snap;
                snapshotVersion := Some (version s) |}]> (scripts p)).
Proof.
  intros p'. subst p'. unfold exec.
  destruct (documents_fsPathGet w name) as [doc|] eqn:Hdoc.
  { rewrite (getScriptSnapshot_open w name p doc) by assumption. simpl.
    repeat split; eauto. }
  destruct (scripts p !! fsPathKey name) as [s|] eqn:Hs.
  - destruct (decide (snapshotVersion s = Some (version s))) as [Hv|Hv].
    { rewrite (getScriptSnapshot_hit w name p s) by assumption. simpl.
      repeat split; eauto. }
    rewrite getScriptSnapshot_miss by (try rewrite Hs; assumption).
    rewrite Hs.
    destruct (sys_fileExists (projectSys w) name);
      [|simpl; repeat split; eauto].
    destruct (sys_readFile (projectSys w) name) as [text|];
      [|simpl; repeat split; eauto].
    simpl. repeat split.
    + intros k Hk. by rewrite lookup_insert_ne.
    + intros k e He. destruct (decide (k = fsPathKey name)) as [->|Hk].
      * rewrite lookup_insert_eq. rewrite Hs in He. injection He as <-.
        eexists; repeat split.
      * rewrite lookup_insert_ne by done. eauto.
    + intros s' [= <-]. right. eexists. split; [exact Hv|reflexivity].
  - rewrite getScriptSnapshot_miss by (try rewrite Hs; done).
    rewrite Hs.
    destruct (sys_fileExists (projectSys w) name);
      [|simpl; repeat split; eauto; discriminate].
    destruct (sys_readFile (projectSys w) name) as [text|];
      [|simpl; repeat split; eauto; discriminate].
    simpl. repeat split.
    + intros k Hk. by rewrite lookup_insert_ne.
    + intros k e He. destruct (decide (k = fsPathKey name)) as [->|Hk].
      * rewrite Hs in He. discriminate.
      * rewrite lookup_insert_ne by done. eauto.
    + discriminate.
Qed.

(** ** The content-resolution closure *)

Lemma after_nil (p : Project) : after [] p = p.
Proof. unfold after, set_trace. rewrite app_nil_r. by destruct p. Qed.

Lemma schemaRequest_exec (w : World) (uri : string) (p : Project) :
  exec (schemaRequest w uri) p = after (schemaRequest_calls w uri) p.
Proof.
  unfold schemaRequest, schemaRequest_calls.
  destruct (schemaRequestHandlers_get w (protocolOf uri))
    as [[handler|[apply|]]|]; try reflexivity; try (by rewrite after_nil).
  destruct (match languageFeatures options with
            | Some features => schemaRequestService features
            | None => false
            end); [reflexivity|].
  by rewrite after_nil.
Qed.

Lemma schemaRequest_calls_one (w : World) (uri : string) :
  (length (schemaRequest_calls w uri) ≤ 1)%nat ∧
  List.filter isCreateLanguageService (schemaRequest_calls w uri) = [] ∧
  List.filter isCreateParsedCommandLine (schemaRequest_calls w uri) = [].
Proof.
  unfold schemaRequest_calls.
  destruct (schemaRequestHandlers_get w (protocolOf uri)) as [[?|?]|];
    [| |destruct (match languageFeatures options with
                  | Some features => schemaRequestService features
                  | None => false
                  end)];
    simpl; repeat split; lia.
Qed.

Lemma schemaRequest_same_variables (w : World) (uri : string)
    (p : Project) :
  same_variables (exec (schemaRequest w uri) p) p.
Proof. rewrite schemaRequest_exec. by repeat split. Qed.

(** The cases of [schemaRequest].  A handler that the table owns
    under the URI's scheme is used.  When the property read finds
    nothing at all and [schemaRequestService] is configured, one
    request goes to the client and a rejection comes back as a
    rejection carrying the error's message; when it is not
    configured, the closure rejects with a fixed message.  When the
    read finds an inherited member, that member is called instead (or
    a [TypeError] is thrown when it cannot be called) and no request
    is sent.  Whatever the outcome, no variable of the project
    changes and at most one outside call is made. *)
Lemma schemaRequest_cases (w : World) (uri : string) (p : Project) :
  (∀ builtInHandler : string → Promise string string,
     schemaRequestHandlers w !! protocolOf uri = Some builtInHandler →
     schemaRequest w uri p =
       (Promised (builtInHandler uri),
        after [BuiltInSchemaRequest (protocolOf uri) uri] p)) ∧
  (schemaRequestHandlers_get w (protocolOf uri) = None →
   (∃ features : LanguageFeatures,
      languageFeatures options = Some features ∧
      schemaRequestService features = true) →
   schemaRequest w uri p =
     (Promised
        match connection_getDocumentContent w uri with
        | Fulfilled responseText => Fulfilled responseText
        | Rejected error => Rejected (error_message error)
        end,
      after [SendGetDocumentContent uri] p)) ∧
  (schemaRequestHandlers_get w (protocolOf uri) = None →
   (∀ features : LanguageFeatures,
      languageFeatures options = Some features →
      schemaRequestService features = false) →
   schemaRequest w uri p =
     (Promised (Rejected "clientHandledGetDocumentContentRequest is false"),
      p)) ∧
  (∀ member : Inherited,
     schemaRequestHandlers w !! protocolOf uri = None →
     schemaRequestHandlers_prototype w (protocolOf uri) = Some member →
     schemaRequest w uri p =
       (match member with
        | InheritedFunction apply =>
            match apply uri with
            | Normal value => Returned value
            | ThrowTypeError => Thrown
            end
        | InheritedObject => Thrown
        end, p)) ∧
  same_variables (exec (schemaRequest w uri) p) p ∧
  (∃ es : list Effect,
     trace (exec (schemaRequest w uri) p) = trace p ++ es ∧
     (length es ≤ 1)%nat).
Proof.
  split; [|split; [|split; [|split; [|split]]]].
  - intros h Hown. unfold schemaRequest, schemaRequestHandlers_get.
    by rewrite Hown.
  - intros Hnone (features & Hfeatures & Hservice). unfold schemaRequest.
    by rewrite Hnone, Hfeatures, Hservice.
  - intros Hnone Hservice. unfold schemaRequest. rewrite Hnone.
    destruct (languageFeatures options) as [features|]; [|reflexivity].
    by rewrite (Hservice features eq_refl).
  - intros member Hown Hproto. unfold schemaRequest, schemaRequestHandlers_get.
    rewrite Hown, Hproto. by destruct member.
  - apply schemaRequest_same_variables.
  - rewrite schemaRequest_exec. exists (schemaRequest_calls w uri).
    split; [reflexivity|apply schemaRequest_calls_one].
Qed.

(** ** [dispose] *)

Lemma dispose_run (p : Project) :
  exec dispose p =
  set_scripts ∅
    match vueLs p with
    | Some ls => after [DisposeLanguageService ls] p
    | None => p
    end.
Proof.
  unfold dispose, scripts_clear, after. run_m.
  destruct (vueLs p); reflexivity.
Qed.

(** C5, as the source has it.  [dispose] calls the language
    service's own [dispose] when one was built and clears the
    registry; it keeps the counters, the parsed configuration and the
    stored instance, and sets no flag.  A second [dispose] leaves every
    variable as the first left it, and makes no outside call at all
    when no language service was built. *)
Theorem dispose_clears_registry (p : Project) :
  let p1 := exec dispose p in
  scripts p1 = ∅ ∧
  typeRootVersion p1 = typeRootVersion p ∧
  projectVersion p1 = projectVersion p ∧
  parsedCommandLine p1 = parsedCommandLine p ∧
  vueLs p1 = vueLs p ∧
  trace p1 =
    match vueLs p with
    | Some ls => trace p ++ [DisposeLanguageService ls]
    | None => trace p
    end ∧
  same_variables (exec dispose p1) p1 ∧
  (vueLs p = None → exec dispose p1 = p1).
Proof.
  intros p1. subst p1. rewrite !dispose_run. unfold same_variables.
  destruct (vueLs p) eqn:Hls; simpl; rewrite ?Hls; simpl;
    repeat split; try discriminate; try assumption.
Qed.

(** ** The language service instance *)

Lemma factoryCalls_after (es : list Effect) (p : Project) :
  factoryCalls (after es p) =
  (factoryCalls p + length (List.filter isCreateLanguageService es))%nat.
Proof.
  unfold factoryCalls, after. simpl.
  rewrite List.filter_app, length_app. reflexivity.
Qed.

Lemma factoryCalls_set_scripts (m : gmap string ScriptEntry) (p : Project) :
  factoryCalls (set_scripts m p) = factoryCalls p.
Proof. reflexivity. Qed.

Lemma getLanguageService_run (p : Project) :
  getLanguageService p =
  match vueLs p with
  | Some ls => (ls, p)
  | None =>
      let ls := {| instance := factoryCalls p |} in
      (ls, set_vueLs (Some ls)
             (after [LoadCustomPlugins rootPath; CreateLanguageService ls] p))
  end.
Proof.
  unfold getLanguageService, createLanguageService, after. run_m.
  destruct (vueLs p); [reflexivity|].
  unfold factoryCalls, set_vueLs, set_trace. simpl.
  rewrite List.filter_app. simpl. rewrite app_nil_r, <- app_assoc.
  reflexivity.
Qed.

(** What [getScriptSnapshot] leaves of the instance and of the count
    of factory calls. *)
Lemma getScriptSnapshot_factory (w : World) (name : string) (p : Project) :
  vueLs (exec (getScriptSnapshot w name) p) = vueLs p ∧
  factoryCalls (exec (getScriptSnapshot w name) p) = factoryCalls p.
Proof.
  unfold exec.
  destruct (documents_fsPathGet w name) as [doc|] eqn:Hdoc.
  { by rewrite (getScriptSnapshot_open w name p doc). }
  destruct (scripts p !! fsPathKey name) as [s|] eqn:Hs.
  - destruct (decide (snapshotVersion s = Some (version s))) as [Hv|Hv].
    { by rewrite (getScriptSnapshot_hit w name p s). }
    rewrite getScriptSnapshot_miss by (try rewrite Hs; assumption).
    destruct (sys_fileExists (projectSys w) name);
      [destruct (sys_readFile (projectSys w) name)|]; simpl;
      rewrite ?factoryCalls_set_scripts, factoryCalls_after; simpl;
      split; try reflexivity; lia.
  - rewrite getScriptSnapshot_miss by (try rewrite Hs; done).
    destruct (sys_fileExists (projectSys w) name);
      [destruct (sys_readFile (projectSys w) name)|]; simpl;
      rewrite ?factoryCalls_set_scripts, factoryCalls_after; simpl;
      split; try reflexivity; lia.
Qed.

Lemma schemaRequest_factory (w : World) (uri : string) (p : Project) :
  vueLs (exec (schemaRequest w uri) p) = vueLs p ∧
  factoryCalls (exec (schemaRequest w uri) p) = factoryCalls p.
Proof.
  rewrite schemaRequest_exec, factoryCalls_after.
  destruct (schemaRequest_calls_one w uri) as (_ & -> & _).
  split; [reflexivity|simpl; lia].
Qed.

Lemma exec_discard {A : Type} (m : M A) (p : Project) :
  exec (discard m) p = exec m p.
Proof. unfold exec, discard, bind, ret. destruct (m p). reflexivity. Qed.

Lemma keeps_factory (p p' : Project) :
  vueLs p' = vueLs p ∧ factoryCalls p' = factoryCalls p →
  match vueLs p with
  | Some ls => vueLs p' = Some ls ∧ factoryCalls p' = factoryCalls p
  | None =>
      (vueLs p' = None ∧ factoryCalls p' = factoryCalls p) ∨
      (is_Some (vueLs p') ∧ factoryCalls p' = S (factoryCalls p))
  end.
Proof. intros [Hls Hn]. destruct (vueLs p); [|left]; split; assumption. Qed.

(** A call other than [getLanguageService] keeps the stored instance
    and builds none; [getLanguageService] builds one only when none is
    stored. *)
Lemma call_factory (w : World) (c : Call) (p : Project) :
  let p' := exec (call w c) p in
  match vueLs p with
  | Some ls => vueLs p' = Some ls ∧ factoryCalls p' = factoryCalls p
  | None =>
      (vueLs p' = None ∧ factoryCalls p' = factoryCalls p) ∨
      (is_Some (vueLs p') ∧ factoryCalls p' = S (factoryCalls p))
  end.
Proof.
  intros p'. subst p'. destruct c; cbn [call].
  - apply keeps_factory. rewrite onWorkspaceFilesChanged_run. cbv zeta.
    destruct (structural changes); split; try reflexivity.
    unfold factoryCalls. simpl. rewrite List.filter_app, length_app.
    simpl. lia.
  - apply keeps_factory. split; reflexivity.
  - rewrite exec_discard. unfold exec. rewrite getLanguageService_run.
    destruct (vueLs p) as [ls|] eqn:Hls; simpl.
    + rewrite Hls. split; reflexivity.
    + right. split; [eauto|].
      change (factoryCalls
                (after [LoadCustomPlugins rootPath;
                        CreateLanguageService {| instance := factoryCalls p |}]
                   p) = S (factoryCalls p)).
      rewrite factoryCalls_after. simpl. lia.
  - apply keeps_factory. split; reflexivity.
  - apply keeps_factory. split; reflexivity.
  - apply keeps_factory. rewrite dispose_run.
    destruct (vueLs p) eqn:Hls; split; try reflexivity; try exact Hls.
    rewrite factoryCalls_set_scripts, factoryCalls_after. simpl. lia.
  - apply keeps_factory. split; reflexivity.
  - apply keeps_factory. split; reflexivity.
  - apply keeps_factory. unfold getScriptVersion, scripts_fsPathGet.
    destruct (documents_fsPathGet w name); split; reflexivity.
  - apply keeps_factory.
    rewrite exec_discard.
    apply getScriptSnapshot_factory.
  - apply keeps_factory.
    rewrite exec_discard.
    apply schemaRequest_factory.
Qed.

Lemma exec_forEach_cons {A : Type} (body : A → M unit) (x : A) (l : list A)
    (p : Project) :
  exec (forEach body (x :: l)) p = exec (forEach body l) (exec (body x) p).
Proof. cbn [forEach]. unfold exec, bind. destruct (body x p). reflexivity. Qed.

Lemma calls_keep_instance (history : list (World * Call)) (p : Project)
    (ls : LanguageService) :
  vueLs p = Some ls →
  vueLs (exec (calls history) p) = Some ls ∧
  factoryCalls (exec (calls history) p) = factoryCalls p.
Proof.
  revert p. induction history as [|[w c] history IH]; intros p Hls.
  - split; [exact Hls|reflexivity].
  - unfold calls in *. rewrite exec_forEach_cons. simpl.
    pose proof (call_factory w c p) as Hc. simpl in Hc. rewrite Hls in Hc.
    destruct Hc as [Hls' Hn]. destruct (IH _ Hls') as [H1 H2].
    split; [exact H1|congruence].
Qed.

(** From its creation on, a project has built at most one language
    service, and has built one exactly when it stores one. *)
Lemma factory_called_at_most_once (w0 : World)
    (history : list (World * Call)) :
  let p := exec (calls history) (createProject w0) in
  (vueLs p = None ∧ factoryCalls p = 0%nat) ∨
  (is_Some (vueLs p) ∧ factoryCalls p = 1%nat).
Proof.
  simpl.
  assert (Hgen : ∀ p,
            (vueLs p = None ∧ factoryCalls p = 0%nat) ∨
            (is_Some (vueLs p) ∧ factoryCalls p = 1%nat) →
            (vueLs (exec (calls history) p) = None ∧
             factoryCalls (exec (calls history) p) = 0%nat) ∨
            (is_Some (vueLs (exec (calls history) p)) ∧
             factoryCalls (exec (calls history) p) = 1%nat)).
  { induction history as [|[w c] history IH]; intros p Hp; [exact Hp|].
    unfold calls in *. rewrite exec_forEach_cons. simpl. apply IH.
    pose proof (call_factory w c p) as Hc. simpl in Hc.
    destruct Hp as [[Hls Hn]|[[ls Hls] Hn]]; rewrite Hls in Hc.
    - destruct Hc as [[H1 H2]|[H1 H2]]; [left|right]; split;
        try assumption; lia.
    - destruct Hc as [H1 H2]. right. split; [eauto|lia]. }
  apply Hgen. left. split; reflexivity.
Qed.

(** Once [getLanguageService] has returned an instance, every later
    call returns it, and the factory is not called again. *)
Lemma getLanguageService_stable
    (history : list (World * Call)) (p : Project) :
  let ls1 := eval getLanguageService p in
  let p1 := exec getLanguageService p in
  let p2 := exec (calls history) p1 in
  getLanguageService p2 = (ls1, p2) ∧
  factoryCalls p2 = factoryCalls p1 ∧
  (factoryCalls p1 ≤ factoryCalls p + 1)%nat.
Proof.
  intros ls1 p1 p2.
  assert (H1 : vueLs p1 = Some ls1 ∧
               (factoryCalls p1 ≤ factoryCalls p + 1)%nat).
  { subst p1 ls1. unfold exec, eval. rewrite getLanguageService_run.
    destruct (vueLs p) as [ls|] eqn:Hls; simpl.
    - split; [exact Hls|lia].
    - split; [reflexivity|].
      change (factoryCalls
                (after [LoadCustomPlugins rootPath;
                        CreateLanguageService {| instance := factoryCalls p |}]
                   p) ≤ factoryCalls p + 1)%nat.
      rewrite factoryCalls_after. simpl. lia. }
  destruct H1 as [Hls1 Hn1].
  destruct (calls_keep_instance history p1 ls1 Hls1) as [Hls2 Hn2].
  fold p2 in Hls2, Hn2.
  split; [|split; assumption].
  rewrite getLanguageService_run, Hls2. reflexivity.
Qed.

(** C6. Between two calls of [getLanguageService] with no [dispose]
    in between, whatever else is called, the second call returns the
    instance the first returned; the factory is not called after the
    first call has returned, and at most once over both. *)
Theorem getLanguageService_memoized
    (history : list (World * Call)) (p : Project) :
  Forall (λ wc : World * Call, wc.2 ≠ CallDispose) history →
  let ls1 := eval getLanguageService p in
  let p1 := exec getLanguageService p in
  let p2 := exec (calls history) p1 in
  let ls2 := eval getLanguageService p2 in
  let p3 := exec getLanguageService p2 in
  ls1 = ls2 ∧
  factoryCalls p3 = factoryCalls p1 ∧
  (factoryCalls p3 ≤ factoryCalls p + 1)%nat.
Proof.
  intros Hno_dispose ls1 p1 p2 ls2 p3.
  destruct (getLanguageService_stable history p) as (Hsame & Hn2 & Hn1).
  fold ls1 p1 p2 in Hsame, Hn2, Hn1.
  subst ls2 p3. unfold eval, exec. rewrite Hsame. simpl.
  split; [reflexivity|]. split; [exact Hn2|lia].
Qed.

(** ** Deletion *)

Lemma changeScripts_absent (c : FileEvent) (m : gmap string ScriptEntry)
    (k : string) :
  m !! k = None → changeScripts c m !! k = None.
Proof.
  intros Hk. unfold changeScripts.
  destruct (m !! uriKey (change_uri c)) as [s|] eqn:Hs; [|exact Hk].
  assert (Hne : uriKey (change_uri c) ≠ k) by congruence.
  destruct (change_type c).
  - by rewrite lookup_insert_ne.
  - by rewrite lookup_insert_ne.
  - by rewrite lookup_delete_ne.
Qed.

Lemma changeScripts_deleted (c : FileEvent) (m : gmap string ScriptEntry) :
  change_type c = Deleted →
  changeScripts c m !! uriKey (change_uri c) = None.
Proof.
  intros Hkind. unfold changeScripts. rewrite Hkind.
  destruct (m !! uriKey (change_uri c)) eqn:Hs;
    [apply lookup_delete_eq|exact Hs].
Qed.

Lemma fold_changeScripts_absent (changes : list FileEvent)
    (m : gmap string ScriptEntry) (k : string) :
  m !! k = None →
  fold_left (λ m c, changeScripts c m) changes m !! k = None.
Proof.
  revert m. induction changes as [|c changes IH]; intros m Hk; [exact Hk|].
  simpl. apply IH. by apply changeScripts_absent.
Qed.

(** Events never add an entry. *)
Lemma batches_absent (later : list (World * list FileEvent)) (p : Project)
    (k : string) :
  scripts p !! k = None →
  scripts (exec (forEach (λ wb, onWorkspaceFilesChanged wb.1 wb.2) later) p)
    !! k = None.
Proof.
  revert p. induction later as [|[w b] later IH]; intros p Hk; [exact Hk|].
  rewrite exec_forEach_cons. apply IH. simpl.
  rewrite onWorkspaceFilesChanged_scripts.
  by apply fold_changeScripts_absent.
Qed.




End Properties.

(** * Further properties *)

Section Further.
Context {env : Environment}.

(** ** The extensions that [readDirectory] scans *)

Lemma substring_all (s : string) : String.substring 0 (String.length s) s = s.
Proof. induction s as [|c s IH]; simpl; [reflexivity|by rewrite IH]. Qed.

Lemma append_cons (c : ascii) (a b : string) :
  String c a +:+ b = String c (a +:+ b).
Proof. reflexivity. Qed.

Lemma substring_suffix (pre suf : string) :
  String.substring (String.length pre) (String.length suf) (pre +:+ suf) = suf.
Proof.
  induction pre as [|c pre IH]; [apply substring_all|].
  rewrite append_cons. exact IH.
Qed.

Lemma substring_split (s : string) (k : nat) :
  (k ≤ String.length s)%nat →
  s = String.substring 0 k s +:+ String.substring k (String.length s - k) s.
Proof.
  revert k. induction s as [|c s IH]; intros k Hk.
  - destruct k; reflexivity.
  - destruct k as [|k].
    + simpl. by rewrite substring_all.
    + simpl in Hk.
      change (String c s =
              String c (String.substring 0 k s) +:+
              String.substring k (String.length s - k) s).
      rewrite append_cons. f_equal. apply IH. lia.
Qed.

Lemma length_append (a b : string) :
  String.length (a +:+ b) = (String.length a + String.length b)%nat.
Proof.
  induction a as [|c a IH]; [reflexivity|].
  rewrite append_cons. simpl. by rewrite IH.
Qed.

Lemma endsWith_spec (s suffix : string) :
  endsWith s suffix = true ↔ ∃ pre : string, s = pre +:+ suffix.
Proof.
  unfold endsWith. split.
  - destruct (Nat.leb_spec (String.length suffix) (String.length s))
      as [Hle|]; [|discriminate].
    intros Heq. apply String.eqb_eq in Heq.
    exists (String.substring 0 (String.length s - String.length suffix) s).
    pose proof (substring_split s (String.length s - String.length suffix))
      as Hsplit.
    replace (String.length s - (String.length s - String.length suffix))%nat
      with (String.length suffix) in Hsplit by lia.
    rewrite Heq in Hsplit. apply Hsplit. lia.
  - intros [pre ->]. rewrite length_append.
    destruct (Nat.leb_spec (String.length suffix)
                (String.length pre + String.length suffix)) as [_|]; [|lia].
    replace (String.length pre + String.length suffix - String.length suffix)%nat
      with (String.length pre) by lia.
    rewrite substring_suffix. apply String.eqb_refl.
Qed.

Lemma fold_left_push {A : Type} (keep : A → bool) (l acc : list A) :
  fold_left (λ xs x, if keep x then xs ++ [x] else xs) l acc =
  acc ++ List.filter keep l.
Proof.
  revert acc. induction l as [|x l IH]; intros acc; simpl.
  - by rewrite app_nil_r.
  - rewrite IH. destruct (keep x); [|reflexivity].
    by rewrite <- app_assoc.
Qed.

(** X1. The list of extensions that the wrapped [readDirectory] hands
    to [projectSys.readDirectory] is the caller's extensions, then
    [definitelyExts], then those of [indeterminateExts] that some
    include pattern ends with, each group in its own order. *)
Theorem readDirectory_exts_filter (extensions include : list string) :
  readDirectory_exts extensions include =
  extensions ++ definitelyExts languageConfigs ++
  List.filter (λ passiveExt, existsb (λ i, endsWith i passiveExt) include)
    (indeterminateExts languageConfigs).
Proof.
  unfold readDirectory_exts. rewrite fold_left_push.
  by rewrite <- app_assoc.
Qed.

(** X2. An extension is scanned exactly when the caller asked for it,
    or it is one of [definitelyExts], or it is one of
    [indeterminateExts] and some include pattern is a string that ends
    with it. *)
Theorem readDirectory_exts_member
    (extensions include : list string) (ext : string) :
  ext ∈ readDirectory_exts extensions include ↔
  ext ∈ extensions ∨
  ext ∈ definitelyExts languageConfigs ∨
  (ext ∈ indeterminateExts languageConfigs ∧
   ∃ i pre : string, i ∈ include ∧ i = pre +:+ ext).
Proof.
  unfold readDirectory_exts. rewrite fold_left_push.
  rewrite !elem_of_app, !list_elem_of_In, filter_In, existsb_exists.
  split.
  - intros [[H|H]|[H (i & Hi & Hends)]]; auto.
    right; right. split; [exact H|].
    apply endsWith_spec in Hends as [pre ->].
    exists (pre +:+ ext), pre. split; [by apply list_elem_of_In|reflexivity].
  - intros [H|[H|[H (i & pre & Hi & ->)]]]; auto.
    right. split; [exact H|]. exists (pre +:+ ext).
    split; [by apply list_elem_of_In|]. apply endsWith_spec. by exists pre.
Qed.

(** ** Version tokens *)

Lemma to_int_not_nil (z : Z) :
  Z.to_int z ≠ Decimal.Pos Decimal.Nil ∧ Z.to_int z ≠ Decimal.Neg Decimal.Nil.
Proof.
  destruct z; simpl; split; try discriminate; intros [= H];
    by apply (Unsigned.to_uint_nonnil p).
Qed.

Lemma number_toString_inj (a b : Z) :
  number_toString a = number_toString b → a = b.
Proof.
  unfold number_toString. intros H. apply DecimalZ.to_int_inj.
  destruct (to_int_not_nil a), (to_int_not_nil b).
  assert (Some (Z.to_int a) = Some (Z.to_int b)) as [= ->]; [|reflexivity].
  rewrite <- (NilZero.isi (Z.to_int a)), <- (NilZero.isi (Z.to_int b))
    by assumption.
  by rewrite H.
Qed.

(** X3. The token of [getProjectVersion] changes with every
    [onDocumentUpdated] and with every batch of at least one event:
    the consumer, who compares tokens as strings, always sees the
    change. *)
Theorem getProjectVersion_changes
    (w : World) (changes : list FileEvent) (p : Project) :
  eval getProjectVersion (exec onDocumentUpdated p) ≠
    eval getProjectVersion p ∧
  (changes ≠ [] →
   eval getProjectVersion (exec (onWorkspaceFilesChanged w changes) p) ≠
     eval getProjectVersion p).
Proof.
  split.
  - intros H. apply number_toString_inj in H. simpl in H. lia.
  - intros Hne H. unfold eval, getProjectVersion, gets in H. simpl in H.
    apply number_toString_inj in H.
    rewrite onWorkspaceFilesChanged_run in H. simpl in H.
    assert (projectVersion p + Z.of_nat (length changes) = projectVersion p)
      by (destruct (structural changes); exact H).
    destruct changes; [congruence|simpl in *; lia].
Qed.

(** X4. After a [Changed] or [Created] event on a tracked path that
    is not an open document, [getScriptVersion] answers a token
    different from the one it answered before the event. *)
Theorem getScriptVersion_changes
    (w w' : World) (p : Project) (c : FileEvent) (name : string)
    (s : ScriptEntry) :
  change_type c = Changed ∨ change_type c = Created →
  fsPathKey name = uriKey (change_uri c) →
  scripts p !! uriKey (change_uri c) = Some s →
  documents_fsPathGet w' name = None →
  eval (getScriptVersion w' name) (exec (onWorkspaceFilesChanged w [c]) p) ≠
  eval (getScriptVersion w' name) p.
Proof.
  intros Hkind Hkey Hs Hdoc.
  rewrite !getScriptVersion_registry by assumption.
  rewrite onWorkspaceFilesChanged_scripts. simpl. rewrite Hkey, Hs.
  rewrite (changeScripts_update c (scripts p) s);
    [|destruct Hkind; congruence|exact Hs].
  intros H. apply number_toString_inj in H.
  by apply (invalidate_differs s).
Qed.

(** ** Events and the registry *)

Lemma changeScripts_other (c : FileEvent) (m : gmap string ScriptEntry)
    (k : string) :
  uriKey (change_uri c) ≠ k → changeScripts c m !! k = m !! k.
Proof.
  intros Hne. unfold changeScripts.
  destruct (m !! uriKey (change_uri c)); [|reflexivity].
  destruct (change_type c);
    [by rewrite lookup_insert_ne..|by rewrite lookup_delete_ne].
Qed.

Lemma changeScripts_kept (c : FileEvent) (m : gmap string ScriptEntry)
    (k : string) :
  change_type c ≠ Deleted →
  is_Some (m !! k) → is_Some (changeScripts c m !! k).
Proof.
  intros Hkind Hk. destruct (decide (uriKey (change_uri c) = k)) as [<-|Hne].
  - destruct Hk as [s Hs]. rewrite (changeScripts_update c m s); eauto.
  - by rewrite changeScripts_other.
Qed.

(** X5. Events never add an entry to the registry, not even
    [Created] ones: a key that is untracked before a batch is
    untracked after it.  A batch without a [Deleted] event removes
    none either, so it leaves the set of tracked keys as it was. *)
Theorem onWorkspaceFilesChanged_tracked_keys
    (w : World) (changes : list FileEvent) (p : Project) :
  let p' := exec (onWorkspaceFilesChanged w changes) p in
  dom (scripts p') ⊆ dom (scripts p) ∧
  ((∀ c, c ∈ changes → change_type c ≠ Deleted) →
   dom (scripts p') = dom (scripts p)).
Proof.
  intros p'. subst p'. rewrite onWorkspaceFilesChanged_scripts.
  assert (Hsub : dom (fold_left (λ m c, changeScripts c m) changes (scripts p))
                 ⊆ dom (scripts p)).
  { intros k. rewrite !elem_of_dom, <- !not_eq_None_Some.
    intros Hk Hnone. apply Hk. by apply fold_changeScripts_absent. }
  split; [exact Hsub|].
  intros Hkinds. apply set_eq. intros k. split; [apply Hsub|].
  clear Hsub. rewrite !elem_of_dom. generalize (scripts p) as m.
  induction changes as [|c changes IH]; intros m Hk; [exact Hk|].
  simpl. apply IH.
  - intros c' Hc'. apply Hkinds. by right.
  - apply changeScripts_kept; [|exact Hk]. apply Hkinds. by left.
Qed.

(** X6. A batch touches only the entries its events name: the entry
    under a key that is the key of no event's URI is the same after
    the batch as before. *)
Theorem onWorkspaceFilesChanged_other_keys
    (w : World) (changes : list FileEvent) (p : Project) (k : string) :
  (∀ c, c ∈ changes → uriKey (change_uri c) ≠ k) →
  scripts (exec (onWorkspaceFilesChanged w changes) p) !! k = scripts p !! k.
Proof.
  intros Hkeys. rewrite onWorkspaceFilesChanged_scripts.
  generalize (scripts p) as m.
  induction changes as [|c changes IH]; intros m; [reflexivity|].
  simpl. rewrite IH.
  - apply changeScripts_other. apply Hkeys. by left.
  - intros c' Hc'. apply Hkeys. by right.
Qed.

Lemma iter_invalidate_fields (n : nat) (s : ScriptEntry) :
  fileName (Nat.iter n invalidate s) = fileName s ∧
  snapshot (Nat.iter n invalidate s) = snapshot s ∧
  snapshotVersion (Nat.iter n invalidate s) = snapshotVersion s.
Proof. induction n as [|n IH]; simpl; [auto|exact IH]. Qed.

Lemma iter_invalidate_version (n : nat) (s : ScriptEntry) :
  version (Nat.iter (S n) invalidate s) =
  if 0 <=? version s
  then - Z.of_nat (S n)
  else version s - Z.of_nat (S n).
Proof.
  induction n as [|n IH].
  - simpl. destruct (0 <=? version s); lia.
  - change (Nat.iter (S (S n)) invalidate s)
      with (invalidate (Nat.iter (S n) invalidate s)).
    rewrite invalidate_version, IH.
    destruct (Z.leb_spec 0 (version s)).
    + destruct (Z.leb_spec 0 (- Z.of_nat (S n))); lia.
    + destruct (Z.leb_spec 0 (version s - Z.of_nat (S n))); lia.
Qed.

Lemma fold_changeScripts_same_key (changes : list FileEvent)
    (m : gmap string ScriptEntry) (k : string) (s : ScriptEntry) :
  (∀ c, c ∈ changes →
        change_type c ≠ Deleted ∧ uriKey (change_uri c) = k) →
  m !! k = Some s →
  fold_left (λ m c, changeScripts c m) changes m !! k =
  Some (Nat.iter (length changes) invalidate s).
Proof.
  revert m s. induction changes as [|c changes IH]; intros m s Hall Hs;
    [exact Hs|].
  destruct (Hall c) as [Hkind Hkey]; [by left|].
  simpl. rewrite (IH _ (invalidate s)).
  - f_equal. clear. induction (length changes) as [|n IHn];
      [reflexivity|simpl; by rewrite IHn].
  - intros c' Hc'. apply Hall. by right.
  - rewrite <- Hkey. apply changeScripts_update; [exact Hkind|].
    by rewrite Hkey.
Qed.

(** X7. A batch of n >= 1 [Changed] or [Created] events, all on one
    tracked path, leaves its entry with version -n when the version
    was at least 0 and with the old version minus n when it was
    negative; [fileName], the cached snapshot and [snapshotVersion]
    are as before. *)
Theorem repeated_changes_count_down
    (w : World) (changes : list FileEvent) (p : Project) (k : string)
    (s : ScriptEntry) :
  changes ≠ [] →
  (∀ c, c ∈ changes →
        change_type c ≠ Deleted ∧ uriKey (change_uri c) = k) →
  scripts p !! k = Some s →
  ∃ s' : ScriptEntry,
    scripts (exec (onWorkspaceFilesChanged w changes) p) !! k = Some s' ∧
    version s' =
      (if 0 <=? version s
       then - Z.of_nat (length changes)
       else version s - Z.of_nat (length changes)) ∧
    fileName s' = fileName s ∧
    snapshot s' = snapshot s ∧
    snapshotVersion s' = snapshotVersion s.
Proof.
  intros Hne Hall Hs. rewrite onWorkspaceFilesChanged_scripts.
  rewrite (fold_changeScripts_same_key changes (scripts p) k s Hall Hs).
  eexists. split; [reflexivity|].
  split; [|apply iter_invalidate_fields].
  destruct changes as [|c changes]; [congruence|].
  apply iter_invalidate_version.
Qed.

(** X8. Splitting a batch in two gives the same registry and the same
    [projectVersion] as the whole batch; [typeRootVersion] after the
    whole batch is at most what the two halves give, and at most one
    less. *)
Theorem onWorkspaceFilesChanged_split
    (w : World) (first second : list FileEvent) (p : Project) :
  let whole := exec (onWorkspaceFilesChanged w (first ++ second)) p in
  let halves :=
    exec (onWorkspaceFilesChanged w second)
      (exec (onWorkspaceFilesChanged w first) p) in
  scripts whole = scripts halves ∧
  projectVersion whole = projectVersion halves ∧
  typeRootVersion whole ≤ typeRootVersion halves ≤ typeRootVersion whole + 1.
Proof.
  intros whole halves. subst whole halves.
  rewrite !onWorkspaceFilesChanged_scripts, fold_left_app.
  split; [reflexivity|].
  rewrite !onWorkspaceFilesChanged_run. cbv zeta.
  assert (Hwhole : structural (first ++ second) =
                   structural first || structural second)
    by apply existsb_app.
  rewrite Hwhole, length_app, Nat2Z.inj_add.
  destruct (structural first), (structural second); simpl; lia.
Qed.

(** ** Fetching snapshots *)

Lemma not_current (p : Project) (name : string) :
  (∀ s, scripts p !! fsPathKey name = Some s →
        snapshotVersion s ≠ Some (version s)) →
  match scripts p !! fsPathKey name with
  | Some s => snapshotVersion s ≠ Some (version s)
  | None => True
  end.
Proof. intros H. destruct (scripts p !! fsPathKey name); auto. Qed.

(** X9. When [getScriptSnapshot] returns a snapshot for a path that is
    not an open document, asking again returns the same snapshot from
    the registry: no call to the file system and no change of state,
    whatever the file system holds by then. *)
Theorem getScriptSnapshot_again
    (w w' : World) (name : string) (p : Project) (snap : IScriptSnapshot) :
  documents_fsPathGet w name = None →
  documents_fsPathGet w' name = None →
  eval (getScriptSnapshot w name) p = Some snap →
  let p1 := exec (getScriptSnapshot w name) p in
  getScriptSnapshot w' name p1 = (Some snap, p1).
Proof.
  intros Hdoc Hdoc' Hres p1. subst p1. unfold eval, exec in *.
  destruct (scripts p !! fsPathKey name) as [s|] eqn:Hs.
  - destruct (decide (snapshotVersion s = Some (version s))) as [Hv|Hv].
    + pose proof (getScriptSnapshot_hit w name p s Hdoc Hs Hv) as Hrun.
      rewrite Hrun in *. simpl in *. rewrite <- Hres.
      by apply getScriptSnapshot_hit.
    + pose proof (getScriptSnapshot_miss w name p Hdoc) as Hrun.
      rewrite Hs in Hrun. specialize (Hrun Hv). rewrite Hrun in *. clear Hrun.
      destruct (sys_fileExists (projectSys w) name); [|discriminate].
      destruct (sys_readFile (projectSys w) name) as [text|]; [|discriminate].
      simpl in *. injection Hres as <-.
      apply (getScriptSnapshot_hit w' name _
               (withSnapshot (ScriptSnapshot_fromString text) s));
        [assumption|apply lookup_insert_eq|reflexivity].
  - pose proof (getScriptSnapshot_miss w name p Hdoc) as Hrun.
    rewrite Hs in Hrun. specialize (Hrun I). rewrite Hrun in *. clear Hrun.
    destruct (sys_fileExists (projectSys w) name); [|discriminate].
    destruct (sys_readFile (projectSys w) name) as [text|]; [|discriminate].
    simpl in *. injection Hres as <-.
    apply (getScriptSnapshot_hit w' name _ (freshEntry name text));
      [assumption|apply lookup_insert_eq|reflexivity].
Qed.

(** X10. When the path is not an open document, the registry has no
    current snapshot for it, and the file is missing or cannot be
    read, [getScriptSnapshot] returns no snapshot and changes no
    variable of the project: no entry is created, and an existing
    entry keeps its version and its outdated snapshot. *)
Theorem getScriptSnapshot_unreadable
    (w : World) (name : string) (p : Project) :
  documents_fsPathGet w name = None →
  (∀ s, scripts p !! fsPathKey name = Some s →
        snapshotVersion s ≠ Some (version s)) →
  sys_fileExists (projectSys w) name = false ∨
  sys_readFile (projectSys w) name = None →
  eval (getScriptSnapshot w name) p = None ∧
  same_variables (exec (getScriptSnapshot w name) p) p.
Proof.
  intros Hdoc Hstale Hfile. unfold eval, exec, same_variables.
  rewrite getScriptSnapshot_miss by (try apply not_current; assumption).
  destruct (sys_fileExists (projectSys w) name); [|by repeat split].
  destruct Hfile as [|Hread]; [discriminate|]. rewrite Hread.
  by repeat split.
Qed.

(** X11. After a [Deleted] event for a tracked path, a snapshot fetch
    that finds the file again stores a new entry from scratch: its
    version is -1 whatever the version of the deleted entry was, and
    [getScriptVersion] answers ["-1"]. *)
Theorem deleted_then_fetched
    (w w1 w2 : World) (p : Project) (uri name text : string)
    (s : ScriptEntry) :
  scripts p !! uriKey uri = Some s →
  fsPathKey name = uriKey uri →
  documents_fsPathGet w1 name = None →
  sys_fileExists (projectSys w1) name = true →
  sys_readFile (projectSys w1) name = Some text →
  documents_fsPathGet w2 name = None →
  let deleted := {| change_uri := uri; change_type := Deleted |} in
  let p1 := exec (onWorkspaceFilesChanged w [deleted]) p in
  let p2 := exec (getScriptSnapshot w1 name) p1 in
  scripts p2 !! fsPathKey name = Some (freshEntry name text) ∧
  eval (getScriptVersion w2 name) p2 = "-1".
Proof.
  intros Hs Hkey Hdoc1 Hexists Hread Hdoc2 deleted p1 p2.
  assert (H1 : scripts p1 !! fsPathKey name = None).
  { subst p1. rewrite onWorkspaceFilesChanged_scripts, Hkey. simpl.
    by apply (changeScripts_deleted deleted). }
  assert (H2 : scripts p2 !! fsPathKey name = Some (freshEntry name text)).
  { subst p2. unfold exec.
    rewrite getScriptSnapshot_miss by (try rewrite H1; done).
    rewrite Hexists, Hread, H1. simpl. apply lookup_insert_eq. }
  split; [exact H2|].
  rewrite getScriptVersion_registry by assumption. by rewrite H2.
Qed.

(** ** What every call keeps *)

Lemma structural_nonempty (changes : list FileEvent) :
  structural changes = true → (1 ≤ length changes)%nat.
Proof. destruct changes; [discriminate|simpl; lia]. Qed.

Lemma quiet_step (w : World) (p p' : Project) (es : list Effect) :
  trace p' = trace p ++ es →
  List.filter isCreateParsedCommandLine es = [] →
  typeRootVersion p' = typeRootVersion p →
  projectVersion p ≤ projectVersion p' →
  parsedCommandLine p' = parsedCommandLine p →
  ∃ es, trace p' = trace p ++ es ∧ step_shape w p p' es.
Proof. intros. exists es. split; [assumption|]. right. auto. Qed.

Lemma silent_step (w : World) (p p' : Project) :
  trace p' = trace p →
  typeRootVersion p' = typeRootVersion p →
  projectVersion p ≤ projectVersion p' →
  parsedCommandLine p' = parsedCommandLine p →
  ∃ es, trace p' = trace p ++ es ∧ step_shape w p p' es.
Proof.
  intros Ht ? ? ?. apply (quiet_step w p p' []); auto.
  by rewrite app_nil_r.
Qed.

Lemma getScriptSnapshot_step (w : World) (name : string) (p : Project) :
  ∃ es, trace (exec (getScriptSnapshot w name) p) = trace p ++ es ∧
        step_shape w p (exec (getScriptSnapshot w name) p) es.
Proof.
  unfold exec.
  destruct (documents_fsPathGet w name) as [doc|] eqn:Hdoc.
  { rewrite (getScriptSnapshot_open w name p doc) by assumption.
    apply silent_step; simpl; auto; lia. }
  destruct (scripts p !! fsPathKey name) as [s|] eqn:Hs.
  - destruct (decide (snapshotVersion s = Some (version s))) as [Hv|Hv].
    { rewrite (getScriptSnapshot_hit w name p s) by assumption.
      apply silent_step; simpl; auto; lia. }
    rewrite getScriptSnapshot_miss by (try rewrite Hs; assumption).
    destruct (sys_fileExists (projectSys w) name);
      [destruct (sys_readFile (projectSys w) name)|];
      eapply quiet_step; simpl; try reflexivity; lia.
  - rewrite getScriptSnapshot_miss by (try rewrite Hs; done).
    destruct (sys_fileExists (projectSys w) name);
      [destruct (sys_readFile (projectSys w) name)|];
      eapply quiet_step; simpl; try reflexivity; lia.
Qed.

Lemma schemaRequest_step (w : World) (uri : string) (p : Project) :
  ∃ es, trace (exec (schemaRequest w uri) p) = trace p ++ es ∧
        step_shape w p (exec (schemaRequest w uri) p) es.
Proof.
  rewrite schemaRequest_exec.
  eapply quiet_step; try reflexivity; try (simpl; lia).
  apply schemaRequest_calls_one.
Qed.

Lemma call_step (w : World) (c : Call) (p : Project) :
  ∃ es, trace (exec (call w c) p) = trace p ++ es ∧
        step_shape w p (exec (call w c) p) es.
Proof.
  destruct c; cbn [call]; rewrite ?exec_discard;
    try (apply silent_step; try reflexivity; unfold exec; simpl; lia).
  - rewrite onWorkspaceFilesChanged_run. cbv zeta.
    destruct (structural changes) eqn:Hst.
    + exists [CreateParsedCommandLine]. split; [reflexivity|]. left.
      apply structural_nonempty in Hst. simpl. repeat split; lia.
    + apply silent_step; try reflexivity; simpl; lia.
  - unfold exec. rewrite getLanguageService_run.
    destruct (vueLs p); [apply silent_step; try reflexivity; simpl; lia|].
    eapply quiet_step; simpl; try reflexivity; lia.
  - rewrite dispose_run.
    destruct (vueLs p); [|apply silent_step; try reflexivity; simpl; lia].
    eapply quiet_step; simpl; try reflexivity; lia.
  - unfold getScriptVersion, scripts_fsPathGet.
    destruct (documents_fsPathGet w name);
      apply silent_step; try reflexivity; simpl; lia.
  - apply getScriptSnapshot_step.
  - apply schemaRequest_step.
Qed.

Lemma exec_calls_cons (w : World) (c : Call) (history : list (World * Call))
    (p : Project) :
  exec (calls ((w, c) :: history)) p =
  exec (calls history) (exec (call w c) p).
Proof. unfold calls. by rewrite exec_forEach_cons. Qed.

Lemma parseCalls_app (p p' : Project) (es : list Effect) :
  trace p' = trace p ++ es →
  parseCalls p' =
  (parseCalls p + length (List.filter isCreateParsedCommandLine es))%nat.
Proof.
  intros Ht. unfold parseCalls. by rewrite Ht, List.filter_app, length_app.
Qed.

(** Over any history the number of runs of [createParsedCommandLine]
    and [typeRootVersion] go up together, and never by more than
    [projectVersion] does. *)
Lemma calls_counters (history : list (World * Call)) (p : Project) :
  let p' := exec (calls history) p in
  Z.of_nat (parseCalls p') - Z.of_nat (parseCalls p) =
    typeRootVersion p' - typeRootVersion p ∧
  0 ≤ typeRootVersion p' - typeRootVersion p ≤
    projectVersion p' - projectVersion p.
Proof.
  revert p. induction history as [|[w c] history IH]; intros p; simpl.
  - change (exec (calls []) p) with p. lia.
  - rewrite exec_calls_cons.
    destruct (call_step w c p) as (es & Ht & Hshape).
    specialize (IH (exec (call w c) p)). simpl in IH.
    rewrite (parseCalls_app _ _ _ Ht) in *.
    destruct Hshape as [(-> & Htr & Hpv & _)|(Hes & Htr & Hpv & _)];
      [|rewrite Hes in *]; simpl in *; lia.
Qed.

(** X12. The configuration has been parsed once when the project was
    created and once for each time [typeRootVersion] went up: in every
    state that calls can reach from [createProject],
    [createParsedCommandLine] has run [typeRootVersion] + 1 times. *)
Theorem parse_count (w0 : World) (history : list (World * Call)) :
  let p := exec (calls history) (createProject w0) in
  Z.of_nat (parseCalls p) = typeRootVersion p + 1.
Proof.
  simpl. destruct (calls_counters history (createProject w0)) as [H _].
  simpl in H. change (parseCalls (createProject w0)) with 1%nat in H.
  change (typeRootVersion (createProject w0)) with 0 in H. lia.
Qed.

(** X13. No call ever lowers a counter: over any history, from any
    state, [projectVersion] and [typeRootVersion] only grow, and
    [typeRootVersion] grows by no more than [projectVersion] does.  So
    in every state reachable from [createProject],
    0 <= [typeRootVersion] <= [projectVersion]. *)
Theorem counters_monotone
    (w0 : World) (history : list (World * Call)) (p : Project) :
  let p' := exec (calls history) p in
  projectVersion p ≤ projectVersion p' ∧
  typeRootVersion p ≤ typeRootVersion p' ∧
  typeRootVersion p' - typeRootVersion p ≤
    projectVersion p' - projectVersion p ∧
  (p = createProject w0 → 0 ≤ typeRootVersion p' ≤ projectVersion p').
Proof.
  simpl. destruct (calls_counters history p) as [_ H]. simpl in H.
  repeat split; try lia; subst p; simpl in H; lia.
Qed.

(** X14. The parsed configuration is always a whole result of
    [createParsedCommandLine], computed against the file system of
    the creation or of one of the later calls; it is never patched.
    When [tsConfig] is an options object, [outDir] is therefore
    always cleared, the vue options are empty and every file name is
    a normalized one. *)
Theorem parsedCommandLine_provenance
    (w0 : World) (history : list (World * Call)) :
  let p := exec (calls history) (createProject w0) in
  (∃ w : World,
     (w = w0 ∨ w ∈ history.*1) ∧
     parsedCommandLine p = parseCommandLine (projectSys w)) ∧
  (∀ compilerOptions : CompilerOptions,
     tsConfig = inr compilerOptions →
     outDir (pcl_options (parsedCommandLine p)) = None ∧
     pcl_vueOptions (parsedCommandLine p) = [] ∧
     ∀ name, name ∈ pcl_fileNames (parsedCommandLine p) →
             ∃ raw, name = normalizeFileName raw).
Proof.
  simpl.
  assert (Hgen : ∀ (ws : list World) (p : Project),
            (∃ w, w ∈ ws ∧
                  parsedCommandLine p = parseCommandLine (projectSys w)) →
            ∃ w, w ∈ ws ++ history.*1 ∧
                 parsedCommandLine (exec (calls history) p) =
                 parseCommandLine (projectSys w)).
  { induction history as [|[w c] history IH]; intros ws p Hp.
    - destruct Hp as (w & Hw & Heq). exists w.
      split; [|exact Heq]. rewrite app_nil_r. exact Hw.
    - rewrite exec_calls_cons, fmap_cons. simpl.
      replace (ws ++ w :: history.*1) with ((ws ++ [w]) ++ history.*1)
        by (by rewrite <- app_assoc).
      apply IH.
      destruct (call_step w c p) as (es & _ & Hshape).
      destruct Hshape as [(_ & _ & _ & Hpcl)|(_ & _ & _ & Hpcl)].
      + exists w. split; [|exact Hpcl]. apply elem_of_app. right. by left.
      + destruct Hp as (w2 & Hw2 & Heq2). exists w2.
        split; [|by rewrite Hpcl]. apply elem_of_app. by left. }
  destruct (Hgen [w0] (createProject w0)) as (w & Hw & Heq).
  { exists w0. split; [by left|reflexivity]. }
  assert (Hw' : w = w0 ∨ w ∈ history.*1).
  { apply elem_of_cons in Hw. exact Hw. }
  split; [by exists w|].
  intros compilerOptions Hinline. rewrite Heq. unfold parseCommandLine.
  rewrite Hinline. simpl. repeat split.
  intros name Hin. apply list_elem_of_In, in_map_iff in Hin as (raw & <- & _).
  by exists raw.
Qed.

(** ** The registry invariant *)

Lemma invalidate_ok (k : string) (s : ScriptEntry) :
  entry_ok k s → entry_ok k (invalidate s).
Proof.
  intros (Hk & Hv & Hsnap & sv & Hsv & Hle & Hneg).
  unfold entry_ok. rewrite invalidate_version.
  destruct (Z.leb_spec 0 (version s)); [lia|]. simpl.
  repeat split; try assumption; try lia.
  exists sv. repeat split; try assumption; lia.
Qed.

Lemma changeScripts_ok (c : FileEvent) (m : gmap string ScriptEntry) :
  registry_ok m → registry_ok (changeScripts c m).
Proof.
  intros Hm k e. unfold changeScripts.
  destruct (m !! uriKey (change_uri c)) as [s|] eqn:Hs; [|apply Hm].
  assert (Hupdate : <[uriKey (change_uri c) := invalidate s]> m !! k = Some e →
                    entry_ok k e).
  { rewrite lookup_insert. case_decide as Hk.
    - intros [= <-]. subst k. apply invalidate_ok. by apply Hm.
    - apply Hm. }
  destruct (change_type c); try exact Hupdate.
  rewrite lookup_delete. case_decide; [discriminate|apply Hm].
Qed.

Lemma getScriptSnapshot_ok (w : World) (name : string) (p : Project) :
  registry_ok (scripts p) →
  registry_ok (scripts (exec (getScriptSnapshot w name) p)).
Proof.
  intros Hp. unfold exec.
  destruct (documents_fsPathGet w name) as [doc|] eqn:Hdoc.
  { by rewrite (getScriptSnapshot_open w name p doc). }
  assert (Hinsert : ∀ e, entry_ok (fsPathKey name) e →
                         registry_ok (<[fsPathKey name := e]> (scripts p))).
  { intros e He k e'. rewrite lookup_insert. case_decide as Hk.
    - intros [= <-]. by subst k.
    - apply Hp. }
  destruct (scripts p !! fsPathKey name) as [s|] eqn:Hs.
  - destruct (decide (snapshotVersion s = Some (version s))) as [Hv|Hv].
    { by rewrite (getScriptSnapshot_hit w name p s). }
    rewrite getScriptSnapshot_miss by (try rewrite Hs; assumption).
    rewrite Hs.
    destruct (sys_fileExists (projectSys w) name);
      [destruct (sys_readFile (projectSys w) name)|]; simpl; try exact Hp.
    apply Hinsert. destruct (Hp _ _ Hs) as (Hk & Hneg & _).
    repeat split; simpl; eauto. exists (version s). repeat split; lia.
  - rewrite getScriptSnapshot_miss by (try rewrite Hs; done).
    rewrite Hs.
    destruct (sys_fileExists (projectSys w) name);
      [destruct (sys_readFile (projectSys w) name)|]; simpl; try exact Hp.
    apply Hinsert. repeat split; simpl; eauto; try lia.
    exists (-1). repeat split; lia.
Qed.

Lemma call_ok (w : World) (c : Call) (p : Project) :
  registry_ok (scripts p) → registry_ok (scripts (exec (call w c) p)).
Proof.
  intros Hp. destruct c; cbn [call]; rewrite ?exec_discard; try exact Hp.
  - rewrite onWorkspaceFilesChanged_scripts.
    revert Hp. generalize (scripts p) as m.
    induction changes as [|c changes IH]; intros m Hm; [exact Hm|].
    simpl. apply IH. by apply changeScripts_ok.
  - unfold exec. rewrite getLanguageService_run.
    destruct (vueLs p); exact Hp.
  - rewrite dispose_run. intros k e. simpl. by rewrite lookup_empty.
  - unfold getScriptVersion, scripts_fsPathGet.
    destruct (documents_fsPathGet w name); exact Hp.
  - by apply getScriptSnapshot_ok.
  - rewrite schemaRequest_exec. exact Hp.
Qed.

Lemma reachable_ok (w0 : World) (history : list (World * Call)) :
  registry_ok (scripts (exec (calls history) (createProject w0))).
Proof.
  assert (Hgen : ∀ p, registry_ok (scripts p) →
                      registry_ok (scripts (exec (calls history) p))).
  { induction history as [|[w c] history IH]; intros p Hp; [exact Hp|].
    rewrite exec_calls_cons. apply IH. by apply call_ok. }
  apply Hgen. intros k e. simpl. by rewrite lookup_empty.
Qed.

(** X15. In every state that calls can reach from [createProject],
    each registry entry sits under the key of its own [fileName], has
    a negative version and a cached snapshot, and the version its
    snapshot was taken at is negative and not below the current
    version.  So the branch of [onWorkspaceFilesChanged] for versions
    >= 0 is never taken, and a cache hit never returns [undefined]. *)
Theorem registry_invariant
    (w0 : World) (history : list (World * Call)) (k : string)
    (e : ScriptEntry) :
  scripts (exec (calls history) (createProject w0)) !! k = Some e →
  k = fsPathKey (fileName e) ∧
  version e < 0 ∧
  (∃ snap : IScriptSnapshot, snapshot e = Some snap) ∧
  (∃ sv : Z, snapshotVersion e = Some sv ∧ version e ≤ sv ∧ sv < 0).
Proof. intros He. exact (reachable_ok w0 history k e He). Qed.

(** X16. A change event is never lost.  In every state reachable from
    [createProject], after a [Changed] or [Created] event on a tracked
    path, the next [getScriptSnapshot] for that path (not an open
    document) does not answer from the cache: it asks the file system
    and returns what the file system holds. *)
Theorem change_forces_reread
    (w0 w w' : World) (history : list (World * Call)) (c : FileEvent)
    (name : string) (s : ScriptEntry) :
  let p := exec (calls history) (createProject w0) in
  let p1 := exec (onWorkspaceFilesChanged w [c]) p in
  change_type c = Changed ∨ change_type c = Created →
  fsPathKey name = uriKey (change_uri c) →
  scripts p !! uriKey (change_uri c) = Some s →
  documents_fsPathGet w' name = None →
  trace (exec (getScriptSnapshot w' name) p1) =
    trace p1 ++ FileExists name ::
      (if sys_fileExists (projectSys w') name then [ReadFile name] else []) ∧
  eval (getScriptSnapshot w' name) p1 =
    if sys_fileExists (projectSys w') name
    then ScriptSnapshot_fromString <$> sys_readFile (projectSys w') name
    else None.
Proof.
  intros p p1 Hkind Hkey Hs Hdoc.
  destruct (reachable_ok w0 history _ _ Hs)
    as (_ & Hneg & _ & sv & Hsv & Hle & _).
  assert (H1 : scripts p1 !! fsPathKey name = Some (invalidate s)).
  { subst p1. rewrite onWorkspaceFilesChanged_scripts, Hkey. simpl.
    apply changeScripts_update; [destruct Hkind; congruence|exact Hs]. }
  assert (Hstale : snapshotVersion (invalidate s) ≠
                   Some (version (invalidate s))).
  { rewrite invalidate_version. simpl. rewrite Hsv.
    destruct (Z.leb_spec 0 (version s)); intros [= ?]; lia. }
  unfold exec, eval.
  rewrite getScriptSnapshot_miss by (try rewrite H1; assumption).
  destruct (sys_fileExists (projectSys w') name); [|split; reflexivity].
  destruct (sys_readFile (projectSys w') name); split; reflexivity.
Qed.

(** ** The language service over the life of a project *)

(** X17. Over the whole life of a project the factory is called at
    most once, and [getLanguageServiceDontCreate] answers [undefined]
    exactly as long as it has not been called. *)
Theorem factory_lifetime (w0 : World) (history : list (World * Call)) :
  let p := exec (calls history) (createProject w0) in
  (factoryCalls p ≤ 1)%nat ∧
  (eval getLanguageServiceDontCreate p = None ↔ factoryCalls p = 0%nat).
Proof.
  simpl. change (eval getLanguageServiceDontCreate ?p) with (vueLs p).
  destruct (factory_called_at_most_once w0 history)
    as [[Hls Hn]|[[ls Hls] Hn]]; simpl in *; rewrite Hls, Hn.
  - split; [lia|done].
  - split; [lia|]. split; [discriminate|lia].
Qed.

(** X18. [dispose] does not forget the language service.  When one was
    built, [dispose] calls its [dispose] once and keeps it stored:
    every later [getLanguageService], whatever is called in between,
    returns that same disposed instance and the factory builds no new
    one. *)
Theorem dispose_keeps_instance
    (history : list (World * Call)) (p : Project) (ls : LanguageService) :
  vueLs p = Some ls →
  let p1 := exec dispose p in
  let p2 := exec (calls history) p1 in
  trace p1 = trace p ++ [DisposeLanguageService ls] ∧
  getLanguageService p2 = (ls, p2) ∧
  factoryCalls p2 = factoryCalls p.
Proof.
  intros Hls p1 p2.
  assert (H1 : p1 = set_scripts ∅ (after [DisposeLanguageService ls] p)).
  { subst p1. rewrite dispose_run, Hls. reflexivity. }
  assert (Hls1 : vueLs p1 = Some ls) by (rewrite H1; exact Hls).
  destruct (calls_keep_instance history p1 ls Hls1) as [Hls2 Hn2].
  fold p2 in Hls2, Hn2.
  split; [by rewrite H1|].
  split; [by rewrite getLanguageService_run, Hls2|].
  rewrite Hn2, H1, factoryCalls_set_scripts, factoryCalls_after. simpl. lia.
Qed.

(** ** The scheme of a URI *)

Lemma index_colon_cons (c : ascii) (s : string) :
  String.index 0 ":" (String c s) =
  if Ascii.eqb c ":" then Some 0%nat else S <$> String.index 0 ":" s.
Proof.
  change (String.index 0 ":" (String c s))
    with (if (if ascii_dec ":" c then String.prefix "" s else false)
          then Some 0%nat
          else match String.index 0 ":" s with
               | Some n => Some (S n)
               | None => None
               end).
  destruct (ascii_dec ":" c) as [Heq|Hne];
    destruct (Ascii.eqb_spec c ":") as [Heq'|Hne']; try congruence.
  - by destruct s.
  - by destruct (String.index 0 ":" s).
Qed.

Lemma index_colon_first (scheme rest : string) :
  String.index 0 ":" scheme = None →
  String.index 0 ":" (scheme +:+ ":" +:+ rest) = Some (String.length scheme).
Proof.
  induction scheme as [|c scheme IH]; intros Hnone.
  { change ("" +:+ ":" +:+ rest) with (String ":" rest).
    by rewrite index_colon_cons. }
  rewrite append_cons, index_colon_cons. rewrite index_colon_cons in Hnone.
  destruct (Ascii.eqb c ":"); [discriminate|].
  destruct (String.index 0 ":" scheme); [discriminate|].
  by rewrite IH.
Qed.

Lemma substring_prefix (pre post : string) :
  String.substring 0 (String.length pre) (pre +:+ post) = pre.
Proof.
  induction pre as [|c pre IH]; [by destruct post|].
  rewrite append_cons. simpl. by rewrite IH.
Qed.

Lemma index_colon_split (s : string) (i : nat) :
  String.index 0 ":" s = Some i →
  ∃ scheme rest : string,
    s = scheme +:+ ":" +:+ rest ∧
    String.index 0 ":" scheme = None ∧
    String.length scheme = i.
Proof.
  revert i. induction s as [|c s IH]; intros i; [discriminate|].
  rewrite index_colon_cons.
  destruct (Ascii.eqb_spec c ":") as [->|Hne].
  - intros [= <-]. by exists "", s.
  - destruct (String.index 0 ":" s) as [j|]; [|discriminate].
    intros [= <-]. destruct (IH j eq_refl) as (scheme & rest & -> & Hnone & <-).
    exists (String c scheme), rest. split; [reflexivity|]. split; [|reflexivity].
    rewrite index_colon_cons, Hnone.
    by destruct (Ascii.eqb_spec c ":").
Qed.

(** X19. The scheme under which [schemaRequest] looks up a built-in
    handler is the text before the first colon of the URI: for a URI
    [scheme:rest] whose [scheme] has no colon it is [scheme], whatever
    [rest] holds; for a URI without any colon it is the empty string;
    and it never contains a colon itself. *)
Theorem protocolOf_first_colon :
  (∀ scheme rest : string,
     String.index 0 ":" scheme = None →
     protocolOf (scheme +:+ ":" +:+ rest) = scheme) ∧
  (∀ uri : string, String.index 0 ":" uri = None → protocolOf uri = "") ∧
  (∀ uri : string, String.index 0 ":" (protocolOf uri) = None).
Proof.
  split; [|split].
  - intros scheme rest Hnone. unfold protocolOf.
    rewrite (index_colon_first scheme rest Hnone). apply substring_prefix.
  - intros uri Hnone. unfold protocolOf. by rewrite Hnone.
  - intros uri. unfold protocolOf.
    destruct (String.index 0 ":" uri) as [i|] eqn:Hi; [|reflexivity].
    destruct (index_colon_split uri i Hi) as (scheme & rest & -> & Hnone & <-).
    by rewrite substring_prefix.
Qed.

(** ** The file names shown to the language service *)

Lemma Set_add_elem (x y : string) (members : list string) :
  y ∈ Set_add x members ↔ y = x ∨ y ∈ members.
Proof.
  unfold Set_add. case_decide as Hx.
  - split; [by right|]. intros [->|H]; assumption.
  - rewrite elem_of_app, list_elem_of_singleton. tauto.
Qed.

Lemma Set_add_NoDup (x : string) (members : list string) :
  NoDup members → NoDup (Set_add x members).
Proof.
  intros Hnd. unfold Set_add. case_decide as Hx; [exact Hnd|].
  apply NoDup_app. split; [exact Hnd|]. split; [|apply NoDup_singleton].
  intros y Hy ->%list_elem_of_singleton. contradiction.
Qed.

Lemma Set_add_fold {A : Type} (f : A → string) (l : list A)
    (members : list string) :
  let result := fold_left (λ members a, Set_add (f a) members) l members in
  (NoDup members → NoDup result) ∧
  (∀ y, y ∈ result ↔ y ∈ members ∨ ∃ a, a ∈ l ∧ f a = y) ∧
  ∃ added, result = members ++ added.
Proof.
  revert members. induction l as [|a l IH]; intros members; simpl.
  - split; [auto|]. split; [|exists []; by rewrite app_nil_r].
    intros y. split; [by left|]. intros [H|(a & Ha & _)]; [exact H|].
    by apply elem_of_nil in Ha.
  - destruct (IH (Set_add (f a) members)) as (Hnd & Hmem & added & Hadd).
    split; [intros H; by apply Hnd, Set_add_NoDup|]. split.
    + intros y. rewrite Hmem, Set_add_elem. split.
      * intros [[->|H]|(b & Hb & Hfb)]; [right|by left|right].
        -- exists a. split; [by left|reflexivity].
        -- exists b. split; [by right|exact Hfb].
      * intros [H|(b & Hb & Hfb)]; [by left; right|].
        apply elem_of_cons in Hb as [->|Hb]; [by left; left|].
        right. by exists b.
    + rewrite Hadd. unfold Set_add. case_decide.
      * by exists added.
      * exists (f a :: added). by rewrite <- app_assoc.
Qed.

(** X20. [getScriptFileNames] lists every file name of the parsed
    configuration and the [fileName] of every registry entry, and
    nothing else; no name is listed twice; the names of the
    configuration come first, in the order of their first occurrence.
    The call changes nothing. *)
Theorem getScriptFileNames_members (p : Project) :
  let names := eval getScriptFileNames p in
  NoDup names ∧
  (∀ x : string,
     x ∈ names ↔
     x ∈ pcl_fileNames (parsedCommandLine p) ∨
     ∃ (k : string) (e : ScriptEntry),
       scripts p !! k = Some e ∧ fileName e = x) ∧
  (∃ tracked : list string,
     names = Set_from (pcl_fileNames (parsedCommandLine p)) ++ tracked) ∧
  exec getScriptFileNames p = p.
Proof.
  intros names. subst names.
  change (eval getScriptFileNames p)
    with (fold_left (λ members script, Set_add (fileName script) members)
            (map_to_list (scripts p)).*2
            (Set_from (pcl_fileNames (parsedCommandLine p)))).
  destruct (Set_add_fold (λ x : string, x)
              (pcl_fileNames (parsedCommandLine p)) [])
    as (Hnd0 & Hmem0 & _).
  destruct (Set_add_fold fileName (map_to_list (scripts p)).*2
              (Set_from (pcl_fileNames (parsedCommandLine p))))
    as (Hnd & Hmem & Hprefix).
  split; [apply Hnd, Hnd0, NoDup_nil_2|]. split; [|split].
  - intros x. rewrite Hmem. unfold Set_from. rewrite Hmem0. split.
    + intros [[H|(y & Hy & ->)]|(e & He & Hx)].
      * by apply elem_of_nil in H.
      * by left.
      * right. apply list_elem_of_fmap in He as ([k e'] & -> & Hke).
        apply elem_of_map_to_list in Hke. by exists k, e'.
    + intros [H|(k & e & Hke & Hx)].
      * left. right. by exists x.
      * right. exists e. split; [|exact Hx].
        apply list_elem_of_fmap. exists (k, e).
        split; [reflexivity|by apply elem_of_map_to_list].
  - exact Hprefix.
  - reflexivity.
Qed.

End Further.

(** * Runs on the demo project *)

Section Demo.
#[local] Existing Instance demoEnvironment.

Lemma getScriptSnapshot_cache_run :
  documents_fsPathGet demoWorld "/a.ts" = None ∧
  scripts demoProject !! "/a.ts" = Some (freshEntry "/a.ts" "export {}") ∧
  getScriptSnapshot demoWorld "/a.ts" demoProject =
    (Some (ScriptSnapshot_fromString "export {}"), demoProject).
Proof.
  assert (Hdoc : documents_fsPathGet demoWorld "/a.ts" = None)
    by reflexivity.
  assert (Hs : scripts demoProject !! "/a.ts" =
               Some (freshEntry "/a.ts" "export {}"))
    by (vm_compute; reflexivity).
  split; [exact Hdoc|]. split; [exact Hs|].
  destruct (getScriptSnapshot_cache (env := demoEnvironment) demoWorld
              "/a.ts" demoProject) as [_ Hentry].
  destruct (Hentry _ Hdoc Hs) as (Hhit & _ & _).
  exact (Hhit eq_refl).
Defined.

Lemma changed_event_invalidates_version_run :
  scripts demoProject !! "/a.ts" = Some (freshEntry "/a.ts" "export {}") ∧
  ∃ s1 : ScriptEntry,
    scripts (exec (onWorkspaceFilesChanged demoWorld [demoChanged])
               demoProject) !! "/a.ts" = Some s1 ∧
    version s1 = -2.
Proof.
  assert (Hs : scripts demoProject !! "/a.ts" =
               Some (freshEntry "/a.ts" "export {}"))
    by (vm_compute; reflexivity).
  split; [exact Hs|].
  destruct (changed_event_invalidates_version (env := demoEnvironment)
              demoWorld demoWorld demoProject demoChanged demoChanged
              (freshEntry "/a.ts" "export {}") (or_introl eq_refl) Hs)
    as (s1 & H1 & H2 & _).
  exists s1. split; [exact H1|exact H2].
Defined.

Lemma onWorkspaceFilesChanged_typeRootVersion_run :
  demoCreated ∈ [demoCreated; demoDeleted] ∧
  typeRootVersion
    (exec (onWorkspaceFilesChanged demoWorld [demoCreated; demoDeleted])
       demoProject) = typeRootVersion demoProject + 1 ∧
  trace
    (exec (onWorkspaceFilesChanged demoWorld [demoCreated; demoDeleted])
       demoProject) = trace demoProject ++ [CreateParsedCommandLine].
Proof.
  assert (Hin : demoCreated ∈ [demoCreated; demoDeleted])
    by apply list_elem_of_here.
  split; [exact Hin|].
  destruct (onWorkspaceFilesChanged_typeRootVersion (env := demoEnvironment)
              demoWorld [demoCreated; demoDeleted] demoProject)
    as [Hstructural _].
  destruct (Hstructural (ex_intro _ demoCreated
                           (conj Hin (or_introl eq_refl))))
    as (Hversion & _ & Htrace).
  split; [exact Hversion|exact Htrace].
Defined.

Lemma dispose_clears_registry_run :
  vueLs demoProject = None ∧
  exec dispose (exec dispose demoProject) = exec dispose demoProject.
Proof.
  split; [reflexivity|].
  destruct (dispose_clears_registry demoProject)
    as (_ & _ & _ & _ & _ & _ & _ & Hagain).
  exact (Hagain eq_refl).
Defined.

(** C5, as the specification words it, fails: after [dispose],
    [onDocumentUpdated] still changes the state (it adds one to
    [projectVersion]) and [getLanguageService] still builds and stores
    a language service. *)
Lemma dispose_is_not_terminal :
  exec onDocumentUpdated demoDisposed ≠ demoDisposed ∧
  projectVersion (exec onDocumentUpdated demoDisposed) =
    projectVersion demoDisposed + 1 ∧
  vueLs demoDisposed = None ∧
  vueLs (exec getLanguageService demoDisposed) = Some {| instance := 0 |}.
Proof.
  split; [|split; [|split]]; try (vm_compute; reflexivity).
  intros Heq. apply (f_equal projectVersion) in Heq.
  vm_compute in Heq. discriminate.
Qed.

Lemma getLanguageService_memoized_run :
  Forall (λ wc : World * Call, wc.2 ≠ CallDispose)
    [(demoWorld, CallOnDocumentUpdated);
     (demoWorld, CallGetScriptSnapshot "/a.ts")] ∧
  eval getLanguageService demoProject =
  eval getLanguageService
    (exec (calls [(demoWorld, CallOnDocumentUpdated);
                  (demoWorld, CallGetScriptSnapshot "/a.ts")])
       (exec getLanguageService demoProject)).
Proof.
  assert (Hhistory :
            Forall (λ wc : World * Call, wc.2 ≠ CallDispose)
              [(demoWorld, CallOnDocumentUpdated);
               (demoWorld, CallGetScriptSnapshot "/a.ts")])
    by (repeat constructor; discriminate).
  split; [exact Hhistory|].
  exact (proj1 (getLanguageService_memoized (env := demoEnvironment) _
                  demoProject Hhistory)).
Defined.



Lemma schemaRequest_cases_run :
  schemaRequestHandlers_get demoWorld (protocolOf "http://schema/x.json")
    = None ∧
  eval (schemaRequest demoWorld "http://schema/x.json") demoProject =
    Promised (Rejected "offline").
Proof.
  assert (Hnone : schemaRequestHandlers_get demoWorld
                    (protocolOf "http://schema/x.json") = None)
    by (vm_compute; reflexivity).
  split; [exact Hnone|].
  destruct (schemaRequest_cases (env := demoEnvironment) demoWorld
              "http://schema/x.json" demoProject) as (_ & Hremote & _).
  unfold eval.
  rewrite (Hremote Hnone
             (ex_intro _ {| schemaRequestService := true |}
                (conj eq_refl eq_refl))).
  reflexivity.
Defined.

(** C8 fails on the code for a URI whose scheme names an inherited
    member of the handler table.  The table owns no handler for the
    scheme [constructor] and [schemaRequestService] is configured, so
    the request should go to the client; instead the property read
    finds [Object], the closure calls it and hands back a string
    object, and no request is sent.  For the scheme [__proto__] the
    read finds an object that is no function and the call throws. *)
Lemma schemaRequest_inherited_scheme :
  schemaRequestHandlers demoWorld !! protocolOf "constructor:x" = None ∧
  schemaRequestHandlers demoWorld !! protocolOf "__proto__:x" = None ∧
  languageFeatures (options (Environment := demoEnvironment)) =
    Some {| schemaRequestService := true |} ∧
  schemaRequest demoWorld "constructor:x" demoProject =
    (Returned (JsStringObject "constructor:x"), demoProject) ∧
  schemaRequest demoWorld "__proto__:x" demoProject = (Thrown, demoProject).
Proof. repeat split; vm_compute; reflexivity. Qed.

Lemma getScriptSnapshot_creates_entry_run :
  documents_fsPathGet demoWorld "/a.ts" = None ∧
  scripts (createProject demoWorld) !! "/a.ts" = None ∧
  sys_fileExists (projectSys demoWorld) "/a.ts" = true ∧
  sys_readFile (projectSys demoWorld) "/a.ts" = Some "export {}" ∧
  eval (getScriptVersion demoWorld "/a.ts")
    (exec (getScriptSnapshot demoWorld "/a.ts") (createProject demoWorld))
  = "-1".
Proof.
  repeat (split; [reflexivity|]).
  destruct (getScriptSnapshot_creates_entry (env := demoEnvironment)
              demoWorld demoWorld "/a.ts" "export {}"
              (createProject demoWorld)
              eq_refl eq_refl eq_refl eq_refl) as (_ & _ & Hnext).
  exact (proj1 (Hnext eq_refl)).
Defined.

Lemma getScriptSnapshot_frame_run :
  "/b.ts" ≠ "/a.ts" ∧
  scripts (exec (getScriptSnapshot demoWorld "/a.ts")
             (createProject demoWorld)) !! "/b.ts" =
  scripts (createProject demoWorld) !! "/b.ts".
Proof.
  assert (Hne : "/b.ts" ≠ "/a.ts") by discriminate.
  split; [exact Hne|].
  destruct (getScriptSnapshot_frame (env := demoEnvironment) demoWorld "/a.ts"
              (createProject demoWorld))
    as (_ & _ & _ & _ & Hother & _).
  exact (Hother "/b.ts" Hne).
Defined.


(** ** Runs of the further properties *)

Lemma getProjectVersion_changes_run :
  [demoChanged] ≠ [] ∧
  eval getProjectVersion
    (exec (onWorkspaceFilesChanged demoWorld [demoChanged]) demoProject) ≠
  eval getProjectVersion demoProject.
Proof.
  assert (Hne : [demoChanged] ≠ []) by discriminate.
  split; [exact Hne|].
  exact (proj2 (getProjectVersion_changes (env := demoEnvironment)
                  demoWorld [demoChanged] demoProject) Hne).
Defined.

Lemma getScriptVersion_changes_run :
  scripts demoProject !! "/a.ts" = Some (freshEntry "/a.ts" "export {}") ∧
  documents_fsPathGet demoWorld "/a.ts" = None ∧
  eval (getScriptVersion demoWorld "/a.ts")
    (exec (onWorkspaceFilesChanged demoWorld [demoChanged]) demoProject) ≠
  eval (getScriptVersion demoWorld "/a.ts") demoProject.
Proof.
  assert (Hs : scripts demoProject !! "/a.ts" =
               Some (freshEntry "/a.ts" "export {}"))
    by (vm_compute; reflexivity).
  assert (Hdoc : documents_fsPathGet demoWorld "/a.ts" = None)
    by reflexivity.
  split; [exact Hs|]. split; [exact Hdoc|].
  exact (getScriptVersion_changes (env := demoEnvironment) demoWorld
           demoWorld demoProject demoChanged "/a.ts" _
           (or_introl eq_refl) eq_refl Hs Hdoc).
Defined.

Lemma onWorkspaceFilesChanged_tracked_keys_run :
  (∀ c, c ∈ [demoChanged; demoCreated] → change_type c ≠ Deleted) ∧
  dom (scripts (exec (onWorkspaceFilesChanged demoWorld
                        [demoChanged; demoCreated]) demoProject)) =
  dom (scripts demoProject).
Proof.
  assert (Hkinds : ∀ c, c ∈ [demoChanged; demoCreated] →
                        change_type c ≠ Deleted).
  { intros c Hc. apply elem_of_cons in Hc as [->|Hc]; [discriminate|].
    apply list_elem_of_singleton in Hc as ->. discriminate. }
  split; [exact Hkinds|].
  exact (proj2 (onWorkspaceFilesChanged_tracked_keys (env := demoEnvironment)
                  demoWorld [demoChanged; demoCreated] demoProject) Hkinds).
Defined.

Lemma onWorkspaceFilesChanged_other_keys_run :
  (∀ c, c ∈ [demoCreated; demoDeleted] →
        uriKey (Environment := demoEnvironment) (change_uri c) ≠ "/a.ts") ∧
  scripts (exec (onWorkspaceFilesChanged demoWorld [demoCreated; demoDeleted])
             demoProject) !! "/a.ts" = scripts demoProject !! "/a.ts".
Proof.
  assert (Hkeys : ∀ c, c ∈ [demoCreated; demoDeleted] →
                    uriKey (Environment := demoEnvironment) (change_uri c)
                    ≠ "/a.ts").
  { intros c Hc. apply elem_of_cons in Hc as [->|Hc]; [discriminate|].
    apply list_elem_of_singleton in Hc as ->. discriminate. }
  split; [exact Hkeys|].
  exact (onWorkspaceFilesChanged_other_keys (env := demoEnvironment)
           demoWorld [demoCreated; demoDeleted] demoProject "/a.ts" Hkeys).
Defined.

Lemma repeated_changes_count_down_run :
  demoChangedTwice ≠ [] ∧
  scripts demoProject !! "/a.ts" = Some (freshEntry "/a.ts" "export {}") ∧
  ∃ s' : ScriptEntry,
    scripts (exec (onWorkspaceFilesChanged demoWorld demoChangedTwice)
               demoProject) !! "/a.ts" = Some s' ∧
    version s' = -3.
Proof.
  assert (Hne : demoChangedTwice ≠ []) by discriminate.
  assert (Hs : scripts demoProject !! "/a.ts" =
               Some (freshEntry "/a.ts" "export {}"))
    by (vm_compute; reflexivity).
  assert (Hall : ∀ c, c ∈ demoChangedTwice →
                   change_type c ≠ Deleted ∧
                   uriKey (Environment := demoEnvironment) (change_uri c)
                   = "/a.ts").
  { intros c Hc. apply elem_of_cons in Hc as [->|Hc];
      [split; [discriminate|reflexivity]|].
    apply list_elem_of_singleton in Hc as ->.
    split; [discriminate|reflexivity]. }
  split; [exact Hne|]. split; [exact Hs|].
  destruct (repeated_changes_count_down (env := demoEnvironment) demoWorld
              demoChangedTwice demoProject "/a.ts" _ Hne Hall Hs)
    as (s' & H1 & H2 & _).
  exists s'. split; [exact H1|exact H2].
Defined.

Lemma getScriptSnapshot_again_run :
  documents_fsPathGet demoWorld "/a.ts" = None ∧
  eval (getScriptSnapshot demoWorld "/a.ts") (createProject demoWorld) =
    Some (ScriptSnapshot_fromString "export {}") ∧
  eval (getScriptSnapshot demoWorld "/a.ts") demoProject =
    Some (ScriptSnapshot_fromString "export {}").
Proof.
  assert (Hdoc : documents_fsPathGet demoWorld "/a.ts" = None)
    by reflexivity.
  assert (Hres : eval (getScriptSnapshot demoWorld "/a.ts")
                   (createProject demoWorld) =
                 Some (ScriptSnapshot_fromString "export {}"))
    by (vm_compute; reflexivity).
  split; [exact Hdoc|]. split; [exact Hres|].
  unfold eval, demoProject.
  by rewrite (getScriptSnapshot_again (env := demoEnvironment) demoWorld
                demoWorld "/a.ts" (createProject demoWorld) _ Hdoc Hdoc Hres).
Defined.

Lemma getScriptSnapshot_unreadable_run :
  documents_fsPathGet demoWorld "/gone.ts" = None ∧
  sys_fileExists (projectSys demoWorld) "/gone.ts" = false ∧
  eval (getScriptSnapshot demoWorld "/gone.ts") demoProject = None.
Proof.
  assert (Hdoc : documents_fsPathGet demoWorld "/gone.ts" = None)
    by reflexivity.
  assert (Hfile : sys_fileExists (projectSys demoWorld) "/gone.ts" = false)
    by reflexivity.
  assert (Hstale : ∀ s, scripts demoProject !! "/gone.ts" = Some s →
                        snapshotVersion s ≠ Some (version s)).
  { intros s Hs. vm_compute in Hs. discriminate. }
  split; [exact Hdoc|]. split; [exact Hfile|].
  exact (proj1 (getScriptSnapshot_unreadable (env := demoEnvironment)
                  demoWorld "/gone.ts" demoProject Hdoc Hstale
                  (or_introl Hfile))).
Defined.

Lemma deleted_then_fetched_run :
  scripts demoProject !! "/a.ts" = Some (freshEntry "/a.ts" "export {}") ∧
  documents_fsPathGet demoWorld "/a.ts" = None ∧
  sys_fileExists (projectSys demoWorld) "/a.ts" = true ∧
  sys_readFile (projectSys demoWorld) "/a.ts" = Some "export {}" ∧
  eval (getScriptVersion demoWorld "/a.ts")
    (exec (getScriptSnapshot demoWorld "/a.ts")
       (exec (onWorkspaceFilesChanged demoWorld
                [{| change_uri := "file:///a.ts"; change_type := Deleted |}])
          demoProject)) = "-1".
Proof.
  assert (Hs : scripts demoProject !! "/a.ts" =
               Some (freshEntry "/a.ts" "export {}"))
    by (vm_compute; reflexivity).
  split; [exact Hs|]. repeat (split; [reflexivity|]).
  exact (proj2 (deleted_then_fetched (env := demoEnvironment) demoWorld
                  demoWorld demoWorld demoProject "file:///a.ts" "/a.ts"
                  "export {}" _ Hs eq_refl eq_refl eq_refl eq_refl eq_refl)).
Defined.

Lemma counters_monotone_run :
  0 ≤ typeRootVersion
        (exec (calls (env := demoEnvironment) demoHistory)
           (createProject demoWorld))
    ≤ projectVersion
        (exec (calls (env := demoEnvironment) demoHistory)
           (createProject demoWorld)).
Proof.
  destruct (counters_monotone (env := demoEnvironment) demoWorld demoHistory
              (createProject demoWorld)) as (_ & _ & _ & Hreach).
  exact (Hreach eq_refl).
Defined.

Lemma parsedCommandLine_provenance_run :
  tsConfig (Environment := demoInlineEnvironment) =
    inr {| outDir := Some "/dist"; settings := [] |} ∧
  outDir (pcl_options
            (parsedCommandLine
               (exec (calls (env := demoInlineEnvironment) demoHistory)
                  (createProject (env := demoInlineEnvironment) demoWorld))))
  = None.
Proof.
  split; [reflexivity|].
  destruct (parsedCommandLine_provenance (env := demoInlineEnvironment)
              demoWorld demoHistory) as [_ Hinline].
  exact (proj1 (Hinline _ eq_refl)).
Defined.

Lemma registry_invariant_run :
  scripts (exec (calls (env := demoEnvironment) demoHistory)
             (createProject demoWorld)) !! "/a.ts" =
    Some (freshEntry "/a.ts" "export {}") ∧
  version (freshEntry "/a.ts" "export {}") < 0.
Proof.
  assert (Hs : scripts (exec (calls (env := demoEnvironment) demoHistory)
                          (createProject demoWorld)) !! "/a.ts" =
               Some (freshEntry "/a.ts" "export {}"))
    by (vm_compute; reflexivity).
  split; [exact Hs|].
  exact (proj1 (proj2 (registry_invariant (env := demoEnvironment) demoWorld
                         demoHistory "/a.ts" _ Hs))).
Defined.

Lemma change_forces_reread_run :
  scripts (exec (calls (env := demoEnvironment) demoHistory)
             (createProject demoWorld)) !! "/a.ts" =
    Some (freshEntry "/a.ts" "export {}") ∧
  documents_fsPathGet demoWorld "/a.ts" = None ∧
  eval (getScriptSnapshot demoWorld "/a.ts")
    (exec (onWorkspaceFilesChanged demoWorld [demoChanged])
       (exec (calls (env := demoEnvironment) demoHistory)
          (createProject demoWorld))) =
  Some (ScriptSnapshot_fromString "export {}").
Proof.
  assert (Hs : scripts (exec (calls (env := demoEnvironment) demoHistory)
                          (createProject demoWorld)) !! "/a.ts" =
               Some (freshEntry "/a.ts" "export {}"))
    by (vm_compute; reflexivity).
  assert (Hdoc : documents_fsPathGet demoWorld "/a.ts" = None)
    by reflexivity.
  split; [exact Hs|]. split; [exact Hdoc|].
  exact (proj2 (change_forces_reread (env := demoEnvironment) demoWorld
                  demoWorld demoWorld demoHistory demoChanged "/a.ts" _
                  (or_introl eq_refl) eq_refl Hs Hdoc)).
Defined.

Lemma dispose_keeps_instance_run :
  vueLs (exec getLanguageService demoProject) = Some {| instance := 0 |} ∧
  eval getLanguageService
    (exec (calls (env := demoEnvironment) demoHistory)
       (exec dispose (exec getLanguageService demoProject))) =
  {| instance := 0 |}.
Proof.
  assert (Hls : vueLs (exec getLanguageService demoProject) =
                Some {| instance := 0 |})
    by (vm_compute; reflexivity).
  split; [exact Hls|].
  destruct (dispose_keeps_instance (env := demoEnvironment) demoHistory
              (exec getLanguageService demoProject) _ Hls) as (_ & Hsame & _).
  unfold eval. by rewrite Hsame.
Defined.

Lemma protocolOf_first_colon_run :
  String.index 0 ":" "http" = None ∧
  protocolOf ("http" +:+ ":" +:+ "//json.schemastore.org/x") = "http".
Proof.
  assert (Hnone : String.index 0 ":" "http" = None) by reflexivity.
  split; [exact Hnone|].
  exact (proj1 protocolOf_first_colon "http" "//json.schemastore.org/x"
           Hnone).
Defined.

Example getScriptFileNames_demo :
  eval getScriptFileNames
    (exec (getScriptSnapshot demoWorld "/a.ts")
       (set_parsedCommandLine
          {| pcl_fileNames := ["/b.ts"; "/a.ts"; "/b.ts"];
             pcl_options := {| outDir := None; settings := [] |};
             pcl_projectReferences := [];
             pcl_vueOptions := [] |}
          (createProject demoWorld))) = ["/b.ts"; "/a.ts"].
Proof. vm_compute. reflexivity. Qed.

Example readDirectory_exts_demo :
  readDirectory_exts [".ts"] ["src/**/*.md"; "docs/*"] = [".ts"; ".vue"; ".md"] ∧
  readDirectory_exts [".ts"] ["src/**/*"] = [".ts"; ".vue"].
Proof. split; reflexivity. Qed.

End Demo.
